(** * ZeroTier core API (core/zerotier.h): constants, result codes, rule
      tags, and the behaviour the API documents for the rules engine, the
      certificate store and network membership.

    Integers of the C header are embedded as [Z]; byte strings as lists of
    [Z] in the range 0..255.  Enumerations become inductive types together
    with the function giving each enumerator its numeric code. *)

From Stdlib Require Import ZArith List Bool Lia.
From stdpp Require Import base decidable countable gmap list.
Import ListNotations.

Local Open Scope Z_scope.

(* ------------------------------------------------------------------ *)
(** ** Wire-level constants *)

Module Constants.

(** Default primary UDP port for devices running a ZeroTier endpoint *)
Definition ZT_DEFAULT_PORT : Z := 9993.

(** IP protocol number for naked IP encapsulation *)
Definition ZT_DEFAULT_IP_PROTOCOL : Z := 193.

(** Ethernet type for naked Ethernet encapsulation *)
Definition ZT_DEFAULT_ETHERNET_PROTOCOL : Z := 0x9993.

(** Size of a standard I/O buffer as returned by getBuffer(). *)
Definition ZT_BUF_SIZE : Z := 16384.

(** Minimum / maximum Ethernet MTU allowed on virtual networks *)
Definition ZT_MIN_MTU : Z := 1280.
Definition ZT_MAX_MTU : Z := 10000.

(** Minimum allowed physical UDP MTU (smaller values are clipped to this) *)
Definition ZT_MIN_UDP_MTU : Z := 1400.

(** Default UDP payload size NOT including UDP and IP overhead *)
Definition ZT_DEFAULT_UDP_MTU : Z := 1432.

(** Maximum physical payload size that can ever be used, and headroom *)
Definition ZT_MAX_UDP_PHYSPAYLOAD : Z := 10100.
Definition ZT_MAX_UDP_HEADROOM : Z := 224.

(** Maximum payload MTU for UDP packets *)
Definition ZT_MAX_UDP_MTU : Z := ZT_MAX_UDP_PHYSPAYLOAD + ZT_MAX_UDP_HEADROOM.

(** Modelled from the spec: the clipping of a configured physical MTU is
    done by the node's path code, which is outside the header; the header
    documents it next to [ZT_MIN_UDP_MTU] ("smaller values are clipped to
    this") and the specification repeats it ("minimum physical MTU is
    clipped to 1400"). *)
Definition clipPhysicalMTU (mtu : Z) : Z :=
  if mtu <? ZT_MIN_UDP_MTU then ZT_MIN_UDP_MTU else mtu.

End Constants.

(* ------------------------------------------------------------------ *)
(** ** Result codes *)

Module ResultCode.

(** enum ZT_ResultCode *)
Inductive ZT_ResultCode : Type :=
| ZT_RESULT_OK
| ZT_RESULT_FATAL_ERROR_OUT_OF_MEMORY
| ZT_RESULT_FATAL_ERROR_DATA_STORE_FAILED
| ZT_RESULT_FATAL_ERROR_INTERNAL
| ZT_RESULT_ERROR_NETWORK_NOT_FOUND
| ZT_RESULT_ERROR_UNSUPPORTED_OPERATION
| ZT_RESULT_ERROR_BAD_PARAMETER
| ZT_RESULT_ERROR_INVALID_CREDENTIAL
| ZT_RESULT_ERROR_COLLIDING_OBJECT
| ZT_RESULT_ERROR_INTERNAL.

Definition code (r : ZT_ResultCode) : Z :=
  match r with
  | ZT_RESULT_OK => 0
  | ZT_RESULT_FATAL_ERROR_OUT_OF_MEMORY => 100
  | ZT_RESULT_FATAL_ERROR_DATA_STORE_FAILED => 101
  | ZT_RESULT_FATAL_ERROR_INTERNAL => 102
  | ZT_RESULT_ERROR_NETWORK_NOT_FOUND => 1000
  | ZT_RESULT_ERROR_UNSUPPORTED_OPERATION => 1001
  | ZT_RESULT_ERROR_BAD_PARAMETER => 1002
  | ZT_RESULT_ERROR_INVALID_CREDENTIAL => 1003
  | ZT_RESULT_ERROR_COLLIDING_OBJECT => 1004
  | ZT_RESULT_ERROR_INTERNAL => 1005
  end.

Definition INT_MIN : Z := - 2 ^ 31.
Definition INT_MAX : Z := 2 ^ 31 - 1.

(** The cast [(int)(x)]: reduction to 32 bits, two's complement. *)
Definition int_cast (x : Z) : Z := (x + 2 ^ 31) mod 2 ^ 32 - 2 ^ 31.

(** #define ZT_ResultCode_isFatal(x) ((((int)(x)) >= 100)&&(((int)(x)) < 1000)) *)
Definition ZT_ResultCode_isFatal (x : Z) : bool :=
  (int_cast x >=? 100) && (int_cast x <? 1000).

End ResultCode.

(* ------------------------------------------------------------------ *)
(** ** Rules table entries *)

Module Rules.

(** enum ZT_VirtualNetworkRuleType *)
Inductive ZT_VirtualNetworkRuleType : Type :=
| ZT_NETWORK_RULE_ACTION_DROP
| ZT_NETWORK_RULE_ACTION_ACCEPT
| ZT_NETWORK_RULE_ACTION_TEE
| ZT_NETWORK_RULE_ACTION_WATCH
| ZT_NETWORK_RULE_ACTION_REDIRECT
| ZT_NETWORK_RULE_ACTION_BREAK
| ZT_NETWORK_RULE_ACTION_PRIORITY
| ZT_NETWORK_RULE_ACTION__MAX_ID
| ZT_NETWORK_RULE_MATCH_SOURCE_ZEROTIER_ADDRESS
| ZT_NETWORK_RULE_MATCH_DEST_ZEROTIER_ADDRESS
| ZT_NETWORK_RULE_MATCH_VLAN_ID
| ZT_NETWORK_RULE_MATCH_VLAN_PCP
| ZT_NETWORK_RULE_MATCH_VLAN_DEI
| ZT_NETWORK_RULE_MATCH_MAC_SOURCE
| ZT_NETWORK_RULE_MATCH_MAC_DEST
| ZT_NETWORK_RULE_MATCH_IPV4_SOURCE
| ZT_NETWORK_RULE_MATCH_IPV4_DEST
| ZT_NETWORK_RULE_MATCH_IPV6_SOURCE
| ZT_NETWORK_RULE_MATCH_IPV6_DEST
| ZT_NETWORK_RULE_MATCH_IP_TOS
| ZT_NETWORK_RULE_MATCH_IP_PROTOCOL
| ZT_NETWORK_RULE_MATCH_ETHERTYPE
| ZT_NETWORK_RULE_MATCH_ICMP
| ZT_NETWORK_RULE_MATCH_IP_SOURCE_PORT_RANGE
| ZT_NETWORK_RULE_MATCH_IP_DEST_PORT_RANGE
| ZT_NETWORK_RULE_MATCH_CHARACTERISTICS
| ZT_NETWORK_RULE_MATCH_FRAME_SIZE_RANGE
| ZT_NETWORK_RULE_MATCH_RANDOM
| ZT_NETWORK_RULE_MATCH_TAGS_DIFFERENCE
| ZT_NETWORK_RULE_MATCH_TAGS_BITWISE_AND
| ZT_NETWORK_RULE_MATCH_TAGS_BITWISE_OR
| ZT_NETWORK_RULE_MATCH_TAGS_BITWISE_XOR
| ZT_NETWORK_RULE_MATCH_TAGS_EQUAL
| ZT_NETWORK_RULE_MATCH_TAG_SENDER
| ZT_NETWORK_RULE_MATCH_TAG_RECEIVER
| ZT_NETWORK_RULE_MATCH_INTEGER_RANGE
| ZT_NETWORK_RULE_MATCH__MAX_ID.

Definition code (rt : ZT_VirtualNetworkRuleType) : Z :=
  match rt with
  | ZT_NETWORK_RULE_ACTION_DROP => 0
  | ZT_NETWORK_RULE_ACTION_ACCEPT => 1
  | ZT_NETWORK_RULE_ACTION_TEE => 2
  | ZT_NETWORK_RULE_ACTION_WATCH => 3
  | ZT_NETWORK_RULE_ACTION_REDIRECT => 4
  | ZT_NETWORK_RULE_ACTION_BREAK => 5
  | ZT_NETWORK_RULE_ACTION_PRIORITY => 6
  | ZT_NETWORK_RULE_ACTION__MAX_ID => 15
  | ZT_NETWORK_RULE_MATCH_SOURCE_ZEROTIER_ADDRESS => 24
  | ZT_NETWORK_RULE_MATCH_DEST_ZEROTIER_ADDRESS => 25
  | ZT_NETWORK_RULE_MATCH_VLAN_ID => 26
  | ZT_NETWORK_RULE_MATCH_VLAN_PCP => 27
  | ZT_NETWORK_RULE_MATCH_VLAN_DEI => 28
  | ZT_NETWORK_RULE_MATCH_MAC_SOURCE => 29
  | ZT_NETWORK_RULE_MATCH_MAC_DEST => 30
  | ZT_NETWORK_RULE_MATCH_IPV4_SOURCE => 31
  | ZT_NETWORK_RULE_MATCH_IPV4_DEST => 32
  | ZT_NETWORK_RULE_MATCH_IPV6_SOURCE => 33
  | ZT_NETWORK_RULE_MATCH_IPV6_DEST => 34
  | ZT_NETWORK_RULE_MATCH_IP_TOS => 35
  | ZT_NETWORK_RULE_MATCH_IP_PROTOCOL => 36
  | ZT_NETWORK_RULE_MATCH_ETHERTYPE => 37
  | ZT_NETWORK_RULE_MATCH_ICMP => 38
  | ZT_NETWORK_RULE_MATCH_IP_SOURCE_PORT_RANGE => 39
  | ZT_NETWORK_RULE_MATCH_IP_DEST_PORT_RANGE => 40
  | ZT_NETWORK_RULE_MATCH_CHARACTERISTICS => 41
  | ZT_NETWORK_RULE_MATCH_FRAME_SIZE_RANGE => 42
  | ZT_NETWORK_RULE_MATCH_RANDOM => 43
  | ZT_NETWORK_RULE_MATCH_TAGS_DIFFERENCE => 44
  | ZT_NETWORK_RULE_MATCH_TAGS_BITWISE_AND => 45
  | ZT_NETWORK_RULE_MATCH_TAGS_BITWISE_OR => 46
  | ZT_NETWORK_RULE_MATCH_TAGS_BITWISE_XOR => 47
  | ZT_NETWORK_RULE_MATCH_TAGS_EQUAL => 48
  | ZT_NETWORK_RULE_MATCH_TAG_SENDER => 49
  | ZT_NETWORK_RULE_MATCH_TAG_RECEIVER => 50
  | ZT_NETWORK_RULE_MATCH_INTEGER_RANGE => 51
  | ZT_NETWORK_RULE_MATCH__MAX_ID => 63
  end.

(** The family an enumerator belongs to, as its name says
    ([ZT_NETWORK_RULE_ACTION_...] or [ZT_NETWORK_RULE_MATCH_...]). *)
Inductive RuleKind : Type := ACTION | MATCH.

Definition kind (rt : ZT_VirtualNetworkRuleType) : RuleKind :=
  match rt with
  | ZT_NETWORK_RULE_ACTION_DROP
  | ZT_NETWORK_RULE_ACTION_ACCEPT
  | ZT_NETWORK_RULE_ACTION_TEE
  | ZT_NETWORK_RULE_ACTION_WATCH
  | ZT_NETWORK_RULE_ACTION_REDIRECT
  | ZT_NETWORK_RULE_ACTION_BREAK
  | ZT_NETWORK_RULE_ACTION_PRIORITY
  | ZT_NETWORK_RULE_ACTION__MAX_ID => ACTION
  | _ => MATCH
  end.

(** The tag byte [t] of a [ZT_VirtualNetworkRule]: bits are NOTTTTTT.
    "AND with 0x3f to get type, 0x80 to get NOT bit, and 0x40 to get OR
    bit." *)
Definition ruleType (t : Z) : Z := Z.land t 0x3f.
Definition ruleNot (t : Z) : bool := negb (Z.land t 0x80 =? 0).
Definition ruleOr (t : Z) : bool := negb (Z.land t 0x40 =? 0).

(** A tag byte built from a type and the two modifier flags. *)
Definition mkTag (rt : ZT_VirtualNetworkRuleType) (n o : bool) : Z :=
  Z.lor (code rt) (Z.lor (if n then 0x80 else 0) (if o then 0x40 else 0)).

(** "Maximum ID for an ACTION, anything higher is a MATCH" *)
Definition isActionCode (c : Z) : bool := c <=? code ZT_NETWORK_RULE_ACTION__MAX_ID.

Definition allRuleTypes : list ZT_VirtualNetworkRuleType :=
  [ ZT_NETWORK_RULE_ACTION_DROP; ZT_NETWORK_RULE_ACTION_ACCEPT;
    ZT_NETWORK_RULE_ACTION_TEE; ZT_NETWORK_RULE_ACTION_WATCH;
    ZT_NETWORK_RULE_ACTION_REDIRECT; ZT_NETWORK_RULE_ACTION_BREAK;
    ZT_NETWORK_RULE_ACTION_PRIORITY; ZT_NETWORK_RULE_ACTION__MAX_ID;
    ZT_NETWORK_RULE_MATCH_SOURCE_ZEROTIER_ADDRESS;
    ZT_NETWORK_RULE_MATCH_DEST_ZEROTIER_ADDRESS;
    ZT_NETWORK_RULE_MATCH_VLAN_ID; ZT_NETWORK_RULE_MATCH_VLAN_PCP;
    ZT_NETWORK_RULE_MATCH_VLAN_DEI; ZT_NETWORK_RULE_MATCH_MAC_SOURCE;
    ZT_NETWORK_RULE_MATCH_MAC_DEST; ZT_NETWORK_RULE_MATCH_IPV4_SOURCE;
    ZT_NETWORK_RULE_MATCH_IPV4_DEST; ZT_NETWORK_RULE_MATCH_IPV6_SOURCE;
    ZT_NETWORK_RULE_MATCH_IPV6_DEST; ZT_NETWORK_RULE_MATCH_IP_TOS;
    ZT_NETWORK_RULE_MATCH_IP_PROTOCOL; ZT_NETWORK_RULE_MATCH_ETHERTYPE;
    ZT_NETWORK_RULE_MATCH_ICMP; ZT_NETWORK_RULE_MATCH_IP_SOURCE_PORT_RANGE;
    ZT_NETWORK_RULE_MATCH_IP_DEST_PORT_RANGE;
    ZT_NETWORK_RULE_MATCH_CHARACTERISTICS;
    ZT_NETWORK_RULE_MATCH_FRAME_SIZE_RANGE; ZT_NETWORK_RULE_MATCH_RANDOM;
    ZT_NETWORK_RULE_MATCH_TAGS_DIFFERENCE;
    ZT_NETWORK_RULE_MATCH_TAGS_BITWISE_AND;
    ZT_NETWORK_RULE_MATCH_TAGS_BITWISE_OR;
    ZT_NETWORK_RULE_MATCH_TAGS_BITWISE_XOR; ZT_NETWORK_RULE_MATCH_TAGS_EQUAL;
    ZT_NETWORK_RULE_MATCH_TAG_SENDER; ZT_NETWORK_RULE_MATCH_TAG_RECEIVER;
    ZT_NETWORK_RULE_MATCH_INTEGER_RANGE; ZT_NETWORK_RULE_MATCH__MAX_ID ].

End Rules.

(* ------------------------------------------------------------------ *)
(** ** Rules engine *)

Module RulesEngine.
Import Rules.

(** The union [v] of a [ZT_VirtualNetworkRule]: one constructor per member
    (the C union is untagged; which member is meant depends on [t]). *)
Inductive RuleValue : Type :=
| V_ipv6 (ip : list Z) (mask : Z)
| V_ipv4 (ip mask : Z)
| V_intRange (start end_ idx format : Z)
| V_characteristics (characteristics : Z)
| V_port (port0 port1 : Z)
| V_zt (zt : Z)
| V_randomProbability (randomProbability : Z)
| V_mac (mac : list Z)
| V_vlanId (vlanId : Z)
| V_vlanPcp (vlanPcp : Z)
| V_vlanDei (vlanDei : Z)
| V_etherType (etherType : Z)
| V_ipProtocol (ipProtocol : Z)
| V_ipTos (mask value0 value1 : Z)
| V_frameSize (frameSize0 frameSize1 : Z)
| V_icmp (type code flags : Z)
| V_tag (id value : Z)
| V_fwd (address flags length : Z)
| V_qosBucket (qosBucket : Z).

(** typedef struct { uint8_t t; union { ... } v; } ZT_VirtualNetworkRule *)
Record ZT_VirtualNetworkRule : Type := mkRule { t : Z; v : RuleValue }.

(** An entry is an ACTION when its 6-bit type is at most
    [ZT_NETWORK_RULE_ACTION__MAX_ID], a MATCH otherwise. *)
Definition isAction (r : ZT_VirtualNetworkRule) : bool := isActionCode (ruleType (t r)).

Inductive Verdict : Type := VERDICT_DROP | VERDICT_ACCEPT.

(** State threaded through the evaluation of one table for one frame. *)
Record EvalState : Type := mkEvalState {
  acc : bool;                 (* running result of the current block *)
  prevMatch : bool;           (* the previous entry was a MATCH *)
  observers : list Z;         (* TEE / WATCH destinations, newest first *)
  qos : option Z;             (* QoS bucket chosen by PRIORITY *)
  fired : list (nat * Z)      (* (index, type) of the actions taken, newest first *)
}.

Definition initialState : EvalState :=
  {| acc := true; prevMatch := false; observers := []; qos := None; fired := [] |}.

Record EvalResult : Type := mkEvalResult {
  verdict : Verdict;
  reachedEnd : bool;          (* no action ended the evaluation early *)
  redirectTo : option Z;      (* destination given by a REDIRECT that fired *)
  final : EvalState
}.

(** What taking an action leads to: evaluation goes on, or it ends with a
    verdict (and, for REDIRECT, a destination). *)
Inductive ActionOutcome : Type :=
| Continue (st : EvalState)
| Stop (vd : Verdict) (rd : option Z) (st : EvalState).

Definition fwdAddress (r : ZT_VirtualNetworkRule) : Z :=
  match v r with V_fwd a _ _ => a | _ => 0 end.

Definition qosBucketOf (r : ZT_VirtualNetworkRule) : Z :=
  match v r with V_qosBucket b => b | _ => 0 end.

(** State after an action has been handled (taken or skipped): the next
    block starts with [acc] true and no preceding MATCH. *)
Definition nextBlock (st : EvalState) : EvalState :=
  {| acc := true; prevMatch := false; observers := observers st;
     qos := qos st; fired := fired st |}.

Definition recordFired (rn : nat) (r : ZT_VirtualNetworkRule) (st : EvalState) : EvalState :=
  {| acc := acc st; prevMatch := prevMatch st; observers := observers st;
     qos := qos st; fired := (rn, ruleType (t r)) :: fired st |}.

Definition addObserver (a : Z) (st : EvalState) : EvalState :=
  {| acc := acc st; prevMatch := prevMatch st; observers := a :: observers st;
     qos := qos st; fired := fired st |}.

Definition setQos (b : Z) (st : EvalState) : EvalState :=
  {| acc := acc st; prevMatch := prevMatch st; observers := observers st;
     qos := Some b; fired := fired st |}.

Section Evaluation.

(** What a frame is, and whether a MATCH entry matches it before the NOT
    modifier is applied, are inputs of the engine. *)
Variable Frame : Type.
Variable rawMatch : ZT_VirtualNetworkRule -> Frame -> bool.
Variable frame : Frame.

(** A MATCH entry: "compute raw match, apply NOT, and combine into acc via
    AND (default) or OR (if the OR bit set and the previous entry was also
    a MATCH)". *)
Definition stepMatch (r : ZT_VirtualNetworkRule) (st : EvalState) : EvalState :=
  let m := xorb (rawMatch r frame) (ruleNot (t r)) in
  {| acc := if ruleOr (t r) && prevMatch st then acc st || m else acc st && m;
     prevMatch := true; observers := observers st; qos := qos st;
     fired := fired st |}.

(** Modelled from the spec: the rules engine itself (the network filter
    of the node) is not part of the header.  What each action does once it
    fires: "Actions: DROP, ACCEPT, TEE (copy to observer), WATCH (TEE with
    ACK), REDIRECT (drop-and-forward), BREAK (stop evaluating), PRIORITY
    (set QoS bucket)".  DROP, ACCEPT, REDIRECT and BREAK end the
    evaluation; the others let it go on.  Action codes without an
    enumerator (7..15) have no effect. *)
Definition takeAction (rn : nat) (r : ZT_VirtualNetworkRule) (st : EvalState)
  : ActionOutcome :=
  let st' := recordFired rn r st in
  let ty := ruleType (t r) in
  if ty =? code ZT_NETWORK_RULE_ACTION_DROP then
    Stop VERDICT_DROP None st'
  else if ty =? code ZT_NETWORK_RULE_ACTION_ACCEPT then
    Stop VERDICT_ACCEPT None st'
  else if (ty =? code ZT_NETWORK_RULE_ACTION_TEE)
          || (ty =? code ZT_NETWORK_RULE_ACTION_WATCH) then
    Continue (addObserver (fwdAddress r) st')
  else if ty =? code ZT_NETWORK_RULE_ACTION_REDIRECT then
    Stop VERDICT_DROP (Some (fwdAddress r)) st'
  else if ty =? code ZT_NETWORK_RULE_ACTION_BREAK then
    Stop VERDICT_DROP None st'
  else if ty =? code ZT_NETWORK_RULE_ACTION_PRIORITY then
    Continue (setQos (qosBucketOf r) st')
  else
    Continue st'.

(** Modelled from the spec: the evaluation loop.  "Evaluation for a frame
    maintains a running boolean acc. [...] When an ACTION is encountered,
    if acc is true the action fires and acc is reset to true for the next
    block; if acc is false the action is skipped and acc resets to true.
    [...] Default when the table ends with no ACCEPT: DROP."
    [rn] is the index of the head of [rules] in the table. *)
Fixpoint evalFrom (rn : nat) (rules : list ZT_VirtualNetworkRule)
         (st : EvalState) : EvalResult :=
  match rules with
  | [] => {| verdict := VERDICT_DROP; reachedEnd := true;
             redirectTo := None; final := st |}
  | r :: rest =>
      if isAction r then
        if acc st then
          match takeAction rn r st with
          | Continue st' => evalFrom (S rn) rest (nextBlock st')
          | Stop vd rd st' =>
              {| verdict := vd; reachedEnd := false;
                 redirectTo := rd; final := st' |}
          end
        else
          evalFrom (S rn) rest (nextBlock st)
      else
        evalFrom (S rn) rest (stepMatch r st)
  end.

Definition evaluate (rules : list ZT_VirtualNetworkRule) : EvalResult :=
  evalFrom 0 rules initialState.

End Evaluation.

(** An ACCEPT is among the recorded actions. *)
Definition hasAccept (l : list (nat * Z)) : Prop :=
  exists rn, In (rn, code ZT_NETWORK_RULE_ACTION_ACCEPT) l.

(** The ACCEPT action at some index has fired during the evaluation. *)
Definition acceptFired (res : EvalResult) : Prop := hasAccept (fired (final res)).

(** *** An instance over Ethernet header fields *)

Record EthernetFrame : Type := mkFrame {
  sourceMac : list Z;
  destMac : list Z;
  frameEtherType : Z;
  frameVlanId : Z;
  frameLength : Z
}.

Definition listZ_eqb (a b : list Z) : bool :=
  if decide (a = b) then true else false.

(** Modelled from the spec: raw matching on the fields of the Ethernet
    header ("MAC/IP equality", ethertype, VLAN ID, frame size
    "start-end, inclusive").  Entries reading the payload, the tags or the
    characteristics need more than this frame carries and do not match
    here. *)
Definition ethernetRawMatch (r : ZT_VirtualNetworkRule) (f : EthernetFrame) : bool :=
  let ty := ruleType (t r) in
  match v r with
  | V_etherType e =>
      (ty =? code ZT_NETWORK_RULE_MATCH_ETHERTYPE) && (e =? frameEtherType f)
  | V_vlanId i =>
      (ty =? code ZT_NETWORK_RULE_MATCH_VLAN_ID) && (i =? frameVlanId f)
  | V_mac m =>
      ((ty =? code ZT_NETWORK_RULE_MATCH_MAC_SOURCE) && listZ_eqb m (sourceMac f))
      || ((ty =? code ZT_NETWORK_RULE_MATCH_MAC_DEST) && listZ_eqb m (destMac f))
  | V_frameSize lo hi =>
      (ty =? code ZT_NETWORK_RULE_MATCH_FRAME_SIZE_RANGE)
      && (lo <=? frameLength f) && (frameLength f <=? hi)
  | _ => false
  end.

(** The table of the scenario "DROP all non-ARP":
    MATCH_ETHERTYPE 0x0806, ACCEPT, DROP. *)
Definition arpOnlyRules : list ZT_VirtualNetworkRule :=
  [ mkRule (mkTag ZT_NETWORK_RULE_MATCH_ETHERTYPE false false) (V_etherType 0x0806);
    mkRule (mkTag ZT_NETWORK_RULE_ACTION_ACCEPT false false) (V_zt 0);
    mkRule (mkTag ZT_NETWORK_RULE_ACTION_DROP false false) (V_zt 0) ].

Definition ipv4Frame : EthernetFrame :=
  mkFrame [2;0;0;0;0;1] [2;0;0;0;0;2] 0x0800 0 98.

Definition arpFrame : EthernetFrame :=
  mkFrame [2;0;0;0;0;1] [255;255;255;255;255;255] 0x0806 0 42.

(** A table whose last block has no action: the ARP match is left open. *)
Definition openEndedRules : list ZT_VirtualNetworkRule :=
  [ mkRule (mkTag ZT_NETWORK_RULE_MATCH_ETHERTYPE false false) (V_etherType 0x0800);
    mkRule (mkTag ZT_NETWORK_RULE_ACTION_TEE false false) (V_fwd 0x1122334455 0 0);
    mkRule (mkTag ZT_NETWORK_RULE_MATCH_ETHERTYPE false false) (V_etherType 0x0806) ].

(** Whether a MATCH entry holds for a frame once its NOT modifier is
    applied: the value [stepMatch] combines into [acc]. *)
Definition entryMatches {Frame : Type}
           (rawMatch : ZT_VirtualNetworkRule -> Frame -> bool) (frame : Frame)
           (r : ZT_VirtualNetworkRule) : bool :=
  xorb (rawMatch r frame) (ruleNot (t r)).

(** A MATCH entry combined by AND (OR bit clear), and one combined by OR. *)
Definition andMatch (r : ZT_VirtualNetworkRule) : bool :=
  negb (isAction r) && negb (ruleOr (t r)).
Definition orMatch (r : ZT_VirtualNetworkRule) : bool :=
  negb (isAction r) && ruleOr (t r).

(** Every action of the table comes right after a MATCH entry ([prev] tells
    whether the entry before the head is a MATCH). *)
Fixpoint guardedFrom (prev : bool) (rules : list ZT_VirtualNetworkRule) : bool :=
  match rules with
  | [] => true
  | r :: rest =>
      if isAction r then prev && guardedFrom false rest
      else guardedFrom true rest
  end.

Definition guarded (rules : list ZT_VirtualNetworkRule) : bool :=
  guardedFrom false rules.

(** MATCH_ETHERTYPE 0x0806, ACCEPT: nothing but ARP is let through. *)
Definition arpAcceptRules : list ZT_VirtualNetworkRule :=
  [ mkRule (mkTag ZT_NETWORK_RULE_MATCH_ETHERTYPE false false) (V_etherType 0x0806);
    mkRule (mkTag ZT_NETWORK_RULE_ACTION_ACCEPT false false) (V_zt 0) ].

(** NOT MATCH_ETHERTYPE 0x0800 OR MATCH_ETHERTYPE 0x0806, ACCEPT. *)
Definition notIpv4OrArpRules : list ZT_VirtualNetworkRule :=
  [ mkRule (mkTag ZT_NETWORK_RULE_MATCH_ETHERTYPE true false) (V_etherType 0x0800);
    mkRule (mkTag ZT_NETWORK_RULE_MATCH_ETHERTYPE false true) (V_etherType 0x0806);
    mkRule (mkTag ZT_NETWORK_RULE_ACTION_ACCEPT false false) (V_zt 0) ].

End RulesEngine.

(* ------------------------------------------------------------------ *)
(** ** Certificates and the certificate store *)

Module Cert.

(** enum ZT_CertificateError *)
Inductive ZT_CertificateError : Type :=
| ZT_CERTIFICATE_ERROR_NONE
| ZT_CERTIFICATE_ERROR_HAVE_NEWER_CERT
| ZT_CERTIFICATE_ERROR_INVALID_FORMAT
| ZT_CERTIFICATE_ERROR_INVALID_IDENTITY
| ZT_CERTIFICATE_ERROR_INVALID_PRIMARY_SIGNATURE
| ZT_CERTIFICATE_ERROR_INVALID_CHAIN
| ZT_CERTIFICATE_ERROR_INVALID_COMPONENT_SIGNATURE
| ZT_CERTIFICATE_ERROR_INVALID_UNIQUE_ID_PROOF
| ZT_CERTIFICATE_ERROR_MISSING_REQUIRED_FIELDS
| ZT_CERTIFICATE_ERROR_OUT_OF_VALID_TIME_WINDOW.

#[global] Instance ZT_CertificateError_eq_dec : EqDecision ZT_CertificateError.
Proof. solve_decision. Defined.

Definition errorCode (e : ZT_CertificateError) : Z :=
  match e with
  | ZT_CERTIFICATE_ERROR_NONE => 0
  | ZT_CERTIFICATE_ERROR_HAVE_NEWER_CERT => 1
  | ZT_CERTIFICATE_ERROR_INVALID_FORMAT => -1
  | ZT_CERTIFICATE_ERROR_INVALID_IDENTITY => -2
  | ZT_CERTIFICATE_ERROR_INVALID_PRIMARY_SIGNATURE => -3
  | ZT_CERTIFICATE_ERROR_INVALID_CHAIN => -4
  | ZT_CERTIFICATE_ERROR_INVALID_COMPONENT_SIGNATURE => -5
  | ZT_CERTIFICATE_ERROR_INVALID_UNIQUE_ID_PROOF => -6
  | ZT_CERTIFICATE_ERROR_MISSING_REQUIRED_FIELDS => -7
  | ZT_CERTIFICATE_ERROR_OUT_OF_VALID_TIME_WINDOW => -8
  end.

Definition ZT_CERTIFICATE_MAX_STRING_LENGTH : Z := 127.
Definition ZT_CERTIFICATE_LOCAL_TRUST_FLAG_ROOT_CA : Z := 0x0001.
Definition ZT_CERTIFICATE_LOCAL_TRUST_FLAG_ZEROTIER_ROOT_SET : Z := 0x0002.
Definition ZT_CERTIFICATE_UNIQUE_ID_TYPE_NIST_P_384_SIZE : Z := 50.
Definition ZT_CERTIFICATE_UNIQUE_ID_TYPE_NIST_P_384_PRIVATE_SIZE : Z := 48.

(** enum ZT_IdentityType *)
Inductive ZT_IdentityType : Type :=
| ZT_IDENTITY_TYPE_C25519
| ZT_IDENTITY_TYPE_P384.

Definition identityTypeCode (ty : ZT_IdentityType) : Z :=
  match ty with
  | ZT_IDENTITY_TYPE_C25519 => 0
  | ZT_IDENTITY_TYPE_P384 => 1
  end.

(** typedef struct { uint64_t address; uint8_t hash[48]; } ZT_Fingerprint *)
Record ZT_Fingerprint : Type := mkFingerprint {
  address : Z;
  hash : list Z
}.

(** Modelled from the spec: [ZT_Identity] is an opaque type in the header.
    "Identity. A pair: a 40-bit address plus one or two public keys [...].
    The identity may additionally own the corresponding private keys." *)
Record ZT_Identity : Type := mkIdentity {
  identityType : ZT_IdentityType;
  identityAddress : Z;
  publicKeys : list Z;
  privateKeys : option (list Z)
}.

Definition ZT_Identity_hasPrivate (id : ZT_Identity) : bool :=
  match privateKeys id with Some _ => true | None => false end.

(** Modelled from the spec: [ZT_Locator] is an opaque type in the header.
    "Locator. (timestamp, ordered list of endpoints, signer-fingerprint,
    signature)."  An endpoint is kept as its type code and its value
    bytes. *)
Record ZT_Locator : Type := mkLocator {
  locatorTimestamp : Z;
  locatorEndpoints : list (Z * list Z);
  locatorSigner : ZT_Fingerprint;
  locatorSignature : list Z
}.

(** ZT_Certificate_Name *)
Record ZT_Certificate_Name : Type := mkName {
  nameSerialNo : list Z;
  commonName : list Z;
  country : list Z;
  organization : list Z;
  unit : list Z;
  locality : list Z;
  province : list Z;
  streetAddress : list Z;
  postalCode : list Z;
  email : list Z;
  url : list Z;
  host : list Z
}.

(** ZT_Certificate_Identity: identity (never NULL) and locator or NULL *)
Record ZT_Certificate_Identity : Type := mkCertIdentity {
  identity : ZT_Identity;
  locator : option ZT_Locator
}.

(** ZT_Certificate_Network *)
Record ZT_Certificate_Network : Type := mkCertNetwork {
  id : Z;
  controller : ZT_Fingerprint
}.

(** ZT_Certificate_Subject; arrays with their counts become lists, and a
    unique ID of size 0 is the empty list. *)
Record ZT_Certificate_Subject : Type := mkSubject {
  subjectTimestamp : Z;
  identities : list ZT_Certificate_Identity;
  networks : list ZT_Certificate_Network;
  certificates : list (list Z);
  updateURLs : list (list Z);
  name : ZT_Certificate_Name;
  uniqueId : list Z;
  uniqueIdProofSignature : list Z
}.

(** ZT_Certificate *)
Record ZT_Certificate : Type := mkCertificate {
  serialNo : list Z;
  flags : Z;
  timestamp : Z;
  validity : Z * Z;
  subject : ZT_Certificate_Subject;
  issuer : ZT_Identity;
  issuerName : ZT_Certificate_Name;
  extendedAttributes : list Z;
  maxPathLength : Z;
  signature : list Z
}.

(** The public part of an identity, by which issuers are compared. *)
Definition publicPart (i : ZT_Identity) : Z * Z * list Z :=
  (identityTypeCode (identityType i), identityAddress i, publicKeys i).

(** The (issuer, subject-unique-ID) pair of a certificate; a subject
    without a unique ID has no such pair. *)
Definition certKey (c : ZT_Certificate) : option (Z * Z * list Z * list Z) :=
  match uniqueId (subject c) with
  | [] => None
  | _ :: _ => Some (publicPart (issuer c), uniqueId (subject c))
  end.

(** Modelled from the spec: the certificate store lives in the node's
    trust store, not in the header.  "The store holds: certificates keyed
    by serial; a per-(issuer, subject-unique-ID) newest pointer;
    per-certificate local trust flags". *)
Record CertificateStore : Type := mkStore {
  certs : gmap (list Z) ZT_Certificate;
  newest : gmap (Z * Z * list Z * list Z) (list Z);
  localTrust : gmap (list Z) Z
}.

Definition emptyStore : CertificateStore :=
  {| certs := ∅; newest := ∅; localTrust := ∅ |}.

Definition eraseCertificate (serial : list Z) (s : CertificateStore) : CertificateStore :=
  {| certs := delete serial (certs s);
     newest := newest s;
     localTrust := delete serial (localTrust s) |}.

Definition addCertificate (c : ZT_Certificate) (trust : Z) (s : CertificateStore)
  : CertificateStore :=
  {| certs := <[serialNo c := c]> (certs s);
     newest := match certKey c with
               | Some k => <[k := serialNo c]> (newest s)
               | None => newest s
               end;
     localTrust := <[serialNo c := trust]> (localTrust s) |}.

(** Modelled from the spec: "a derived set of root identities (union of
    identities in subjects whose certificates carry the ZEROTIER_ROOT_SET
    trust flag)". *)
Definition rootIdentities (s : CertificateStore) : list ZT_Identity :=
  concat (map (fun e : list Z * ZT_Certificate =>
                 match localTrust s !! fst e with
                 | Some tr =>
                     if Z.testbit tr 1
                     then map identity (identities (subject (snd e)))
                     else []
                 | None => []
                 end)
              (map_to_list (certs s))).

Section Verification.

(** The hash function and the signature checks are those of the
    cryptographic layer; the canonical encoding is that of the certificate
    encoder.  [encode c true] is the encoding with the signature omitted. *)
Variable SHA384 : list Z -> list Z.
Variable encode : ZT_Certificate -> bool -> list Z.
Variable encodeSubject : ZT_Certificate_Subject -> list Z.
Variable identityVerify : ZT_Identity -> list Z -> list Z -> bool.
Variable locatorVerify : ZT_Locator -> ZT_Identity -> bool.
Variable uniqueIdVerify : list Z -> list Z -> list Z -> bool.

Definition listZ_eqb (a b : list Z) : bool :=
  if decide (a = b) then true else false.

Definition locatorsValid (c : ZT_Certificate) : bool :=
  forallb (fun ci => match locator ci with
                     | Some loc => locatorVerify loc (identity ci)
                     | None => true
                     end)
          (identities (subject c)).

Definition uniqueIdProofValid (c : ZT_Certificate) : bool :=
  match uniqueId (subject c) with
  | [] => true
  | _ :: _ => uniqueIdVerify (uniqueId (subject c)) (encodeSubject (subject c))
                             (uniqueIdProofSignature (subject c))
  end.

Definition withinValidity (c : ZT_Certificate) (now : Z) : bool :=
  (fst (validity c) <=? now) && (now <=? snd (validity c)).

Definition withinLimits (c : ZT_Certificate) : bool :=
  (Z.of_nat (length (serialNo c)) =? 48)
  && forallb (fun sn => Z.of_nat (length sn) =? 48) (certificates (subject c)).

(** Modelled from the spec: full verification of a certificate.  "checks
    serial equals digest, all signatures (primary, per-identity locators,
    subject unique-ID proof), validity window against the current time, and
    structural limits. Returns a typed error".  The serial is "SHA-384 of
    the canonical encoding minus the signature". *)
Definition verifyCertificate (c : ZT_Certificate) (now : Z) : ZT_CertificateError :=
  if negb (listZ_eqb (serialNo c) (SHA384 (encode c true))) then
    ZT_CERTIFICATE_ERROR_INVALID_FORMAT
  else if negb (identityVerify (issuer c) (encode c true) (signature c)) then
    ZT_CERTIFICATE_ERROR_INVALID_PRIMARY_SIGNATURE
  else if negb (locatorsValid c) then
    ZT_CERTIFICATE_ERROR_INVALID_COMPONENT_SIGNATURE
  else if negb (uniqueIdProofValid c) then
    ZT_CERTIFICATE_ERROR_INVALID_UNIQUE_ID_PROOF
  else if negb (withinValidity c now) then
    ZT_CERTIFICATE_ERROR_OUT_OF_VALID_TIME_WINDOW
  else if negb (withinLimits c) then
    ZT_CERTIFICATE_ERROR_INVALID_FORMAT
  else
    ZT_CERTIFICATE_ERROR_NONE.

(** Modelled from the spec: insertion into the store.  "insert(cert,
    trust): runs full verification unless the caller certifies it ran.
    Compares against existing by (issuer, subject-unique-ID); older loses.
    Emits HAVE_NEWER_CERT if superseded."  [verified] is the caller's
    statement that verification already ran. *)
Definition insert (s : CertificateStore) (c : ZT_Certificate) (trust : Z)
           (verified : bool) (now : Z) : ZT_CertificateError * CertificateStore :=
  match (if verified then ZT_CERTIFICATE_ERROR_NONE else verifyCertificate c now) with
  | ZT_CERTIFICATE_ERROR_NONE =>
      match certKey c with
      | Some k =>
          match newest s !! k with
          | Some prev =>
              match certs s !! prev with
              | Some old =>
                  if subjectTimestamp (subject c) <? subjectTimestamp (subject old)
                  then (ZT_CERTIFICATE_ERROR_HAVE_NEWER_CERT, s)
                  else (ZT_CERTIFICATE_ERROR_NONE,
                        addCertificate c trust (eraseCertificate prev s))
              | None => (ZT_CERTIFICATE_ERROR_NONE, addCertificate c trust s)
              end
          | None => (ZT_CERTIFICATE_ERROR_NONE, addCertificate c trust s)
          end
      | None => (ZT_CERTIFICATE_ERROR_NONE, addCertificate c trust s)
      end
  | err => (err, s)
  end.

(** Stores built from the empty store by insertions that ran full
    verification. *)
Inductive verifiedStore : CertificateStore -> Prop :=
| verifiedStore_empty : verifiedStore emptyStore
| verifiedStore_insert s c trust now :
    verifiedStore s -> verifiedStore (snd (insert s c trust false now)).

End Verification.

(** Every stored certificate with an (issuer, unique-ID) pair is the one its
    pair's newest pointer designates, under its own serial. *)
Definition newestConsistent (s : CertificateStore) : Prop :=
  forall serial c k,
    certs s !! serial = Some c -> certKey c = Some k ->
    newest s !! k = Some serial.

(** *** Sample data for the supersession scenario *)

Definition sampleIssuer : ZT_Identity :=
  mkIdentity ZT_IDENTITY_TYPE_P384 0x1122334455 [4; 1; 2; 3] None.

Definition emptyName : ZT_Certificate_Name :=
  mkName [] [] [] [] [] [] [] [] [] [] [] [].

Definition sampleSubject (ts : Z) : ZT_Certificate_Subject :=
  mkSubject ts [] [] [] [] emptyName [1; 7; 7; 7] [9; 9].

(** A stand-in digest for the examples: 47 zero bytes and the sum of the
    input modulo 256. *)
Definition sampleDigest (m : list Z) : list Z :=
  repeat 0 47 ++ [fold_right Z.add 0 m mod 256].

Definition sampleEncode (c : ZT_Certificate) (omitSignature : bool) : list Z :=
  [flags c; timestamp c; fst (validity c); snd (validity c);
   subjectTimestamp (subject c); maxPathLength c]
  ++ uniqueId (subject c) ++ publicKeys (issuer c)
  ++ (if omitSignature then [] else signature c).

Definition sampleCert (ts notAfter : Z) : ZT_Certificate :=
  let body := mkCertificate [] 0 ts (0, notAfter) (sampleSubject ts)
                            sampleIssuer emptyName [] 0 [5; 5] in
  mkCertificate (sampleDigest (sampleEncode body true)) 0 ts (0, notAfter)
                (sampleSubject ts) sampleIssuer emptyName [] 0 [5; 5].

Definition sampleInsert (s : CertificateStore) (c : ZT_Certificate) (now : Z)
  : ZT_CertificateError * CertificateStore :=
  insert sampleDigest sampleEncode (fun _ => []) (fun _ _ _ => true)
         (fun _ _ => true) (fun _ _ _ => true) s c 0 false now.

Definition certC1 : ZT_Certificate := sampleCert 1000 5000.
Definition certC2 : ZT_Certificate := sampleCert 2000 9000.

Definition storeWithC2 : CertificateStore :=
  snd (sampleInsert (snd (sampleInsert emptyStore certC1 1500)) certC2 2500).




End Cert.

(* ------------------------------------------------------------------ *)
(** ** Network membership of a node *)

Module Node.
Import ResultCode.

(** enum ZT_VirtualNetworkStatus *)
Inductive ZT_VirtualNetworkStatus : Type :=
| ZT_NETWORK_STATUS_REQUESTING_CONFIGURATION
| ZT_NETWORK_STATUS_OK
| ZT_NETWORK_STATUS_ACCESS_DENIED
| ZT_NETWORK_STATUS_NOT_FOUND.

Definition statusCode (st : ZT_VirtualNetworkStatus) : Z :=
  match st with
  | ZT_NETWORK_STATUS_REQUESTING_CONFIGURATION => 0
  | ZT_NETWORK_STATUS_OK => 1
  | ZT_NETWORK_STATUS_ACCESS_DENIED => 2
  | ZT_NETWORK_STATUS_NOT_FOUND => 3
  end.

(** enum ZT_VirtualNetworkConfigOperation *)
Inductive ZT_VirtualNetworkConfigOperation : Type :=
| ZT_VIRTUAL_NETWORK_CONFIG_OPERATION_UP
| ZT_VIRTUAL_NETWORK_CONFIG_OPERATION_CONFIG_UPDATE
| ZT_VIRTUAL_NETWORK_CONFIG_OPERATION_DOWN
| ZT_VIRTUAL_NETWORK_CONFIG_OPERATION_DESTROY.

Definition operationCode (op : ZT_VirtualNetworkConfigOperation) : Z :=
  match op with
  | ZT_VIRTUAL_NETWORK_CONFIG_OPERATION_UP => 1
  | ZT_VIRTUAL_NETWORK_CONFIG_OPERATION_CONFIG_UPDATE => 2
  | ZT_VIRTUAL_NETWORK_CONFIG_OPERATION_DOWN => 3
  | ZT_VIRTUAL_NETWORK_CONFIG_OPERATION_DESTROY => 4
  end.

(** Modelled from the spec: the per-network state kept by the node, as far
    as joining touches it.  "Network. (id, controller fingerprint, status,
    current config, pending request state, ...)"; [uptr] is the user
    pointer given to ZT_Node_join, [netconfRevision] is 0 while no
    configuration is held, [requestPending] tells that a configuration
    request awaits its reply. *)
Record Network : Type := mkNetwork {
  nwid : Z;
  controllerFingerprint : option Cert.ZT_Fingerprint;
  status : ZT_VirtualNetworkStatus;
  uptr : Z;
  netconfRevision : Z;
  requestPending : bool
}.

(** What the node asks of its driver while handling a call. *)
Inductive Effect : Type :=
| VirtualNetworkConfig (nwid : Z) (op : ZT_VirtualNetworkConfigOperation)
                       (st : ZT_VirtualNetworkStatus)
| NetworkConfigRequest (nwid : Z) (controllerAddress : Z).

(** Modelled from the spec: the node "maintains the map [...] (network id
    -> network)"; [effects] lists, oldest first, the callbacks invoked and
    the requests sent so far. *)
Record NodeState : Type := mkNode {
  networks : gmap Z Network;
  effects : list Effect
}.

(** "the controller identified by the network ID's high 40 bits" *)
Definition controllerOf (nwid : Z) : Z := Z.shiftr nwid 24.

Definition requestTarget (nwid : Z) (fp : option Cert.ZT_Fingerprint) : Z :=
  match fp with
  | Some f => Cert.address f
  | None => controllerOf nwid
  end.

(** Modelled from the spec: ZT_Node_join is only declared in the header.
    Its comment says "If we are already a member of the network, nothing
    is done and OK is returned."; a new network starts in
    REQUESTING_CONFIGURATION, the port config callback is told so, and "a
    NETWORK_CONFIG_REQUEST is sent to the controller identified by the
    network ID's high 40 bits (or by the pinned fingerprint if the caller
    provided one at join time)". *)
Definition ZT_Node_join (node : NodeState) (nwid : Z)
           (controllerFingerprint : option Cert.ZT_Fingerprint) (uptr : Z)
  : ZT_ResultCode * NodeState :=
  match networks node !! nwid with
  | Some _ => (ZT_RESULT_OK, node)
  | None =>
      (ZT_RESULT_OK,
       {| networks :=
            <[nwid := mkNetwork nwid controllerFingerprint
                        ZT_NETWORK_STATUS_REQUESTING_CONFIGURATION uptr 0 true]>
              (networks node);
          effects :=
            effects node ++
            [ VirtualNetworkConfig nwid ZT_VIRTUAL_NETWORK_CONFIG_OPERATION_UP
                                   ZT_NETWORK_STATUS_REQUESTING_CONFIGURATION;
              NetworkConfigRequest nwid (requestTarget nwid controllerFingerprint) ] |})
  end.

(** The node is a member of the network. *)
Definition isMember (node : NodeState) (nwid : Z) : Prop :=
  is_Some (networks node !! nwid).

Definition freshNode : NodeState := {| networks := ∅; effects := [] |}.

Definition testNetworkId : Z := 0xfada000000000001.

Definition joinedNode : NodeState :=
  snd (ZT_Node_join freshNode testNetworkId None 7).

End Node.

(* ------------------------------------------------------------------ *)
(** ** Tag bytes and value formats of rules-table entries *)

Module RuleFormat.
Import Rules.

(** The enumerator a 6-bit type code stands for, if any. *)
Definition ruleTypeOfCode (c : Z) : option ZT_VirtualNetworkRuleType :=
  List.find (fun rt => code rt =? c) allRuleTypes.

(** The 6-bit codes no enumerator uses. *)
Definition unassignedCode (c : Z) : bool :=
  ((7 <=? c) && (c <=? 14)) || ((16 <=? c) && (c <=? 23)) || ((52 <=? c) && (c <=? 62)).

(** The modifier bits of a tag as one mask: NOT is 0x80, OR is 0x40. *)
Definition modifierBits (n o : bool) : Z :=
  Z.lor (if n then 0x80 else 0) (if o then 0x40 else 0).

(** The tag [t] with its NOT and OR bits replaced, its type kept. *)
Definition withModifiers (t : Z) (n o : bool) : Z :=
  Z.lor (Z.land t 0x3f) (modifierBits n o).

(** [intRange.format]: "bits in integer (range 1-64, ((format&63)+1)) and
    endianness (MSB 1 for little, 0 for big)". *)
Definition intRangeBits (format : Z) : Z := Z.land format 63 + 1.
Definition intRangeLittleEndian (format : Z) : bool := negb (Z.land format 0x80 =? 0).

(** The format byte of an integer of [bits] bits with the given endianness. *)
Definition mkIntRangeFormat (bits : Z) (littleEndian : bool) : Z :=
  Z.lor (bits - 1) (if littleEndian then 0x80 else 0).

End RuleFormat.

(* ------------------------------------------------------------------ *)
(** ** Flag words *)

Module Flags.

(** Packet characteristics flags (matched by MATCH_CHARACTERISTICS) *)
Definition ZT_RULE_PACKET_CHARACTERISTICS_INBOUND : Z := 0x8000000000000000.
Definition ZT_RULE_PACKET_CHARACTERISTICS_MULTICAST : Z := 0x4000000000000000.
Definition ZT_RULE_PACKET_CHARACTERISTICS_BROADCAST : Z := 0x2000000000000000.
Definition ZT_RULE_PACKET_CHARACTERISTICS_SENDER_IP_AUTHENTICATED : Z := 0x1000000000000000.
Definition ZT_RULE_PACKET_CHARACTERISTICS_SENDER_MAC_AUTHENTICATED : Z := 0x0800000000000000.
Definition ZT_RULE_PACKET_CHARACTERISTICS_TCP_RESERVED_0 : Z := 0x0000000000000800.
Definition ZT_RULE_PACKET_CHARACTERISTICS_TCP_RESERVED_1 : Z := 0x0000000000000400.
Definition ZT_RULE_PACKET_CHARACTERISTICS_TCP_RESERVED_2 : Z := 0x0000000000000200.
Definition ZT_RULE_PACKET_CHARACTERISTICS_TCP_NS : Z := 0x0000000000000100.
Definition ZT_RULE_PACKET_CHARACTERISTICS_TCP_CWR : Z := 0x0000000000000080.
Definition ZT_RULE_PACKET_CHARACTERISTICS_TCP_ECE : Z := 0x0000000000000040.
Definition ZT_RULE_PACKET_CHARACTERISTICS_TCP_URG : Z := 0x0000000000000020.
Definition ZT_RULE_PACKET_CHARACTERISTICS_TCP_ACK : Z := 0x0000000000000010.
Definition ZT_RULE_PACKET_CHARACTERISTICS_TCP_PSH : Z := 0x0000000000000008.
Definition ZT_RULE_PACKET_CHARACTERISTICS_TCP_RST : Z := 0x0000000000000004.
Definition ZT_RULE_PACKET_CHARACTERISTICS_TCP_SYN : Z := 0x0000000000000002.
Definition ZT_RULE_PACKET_CHARACTERISTICS_TCP_FIN : Z := 0x0000000000000001.

(** The flags that describe the frame and its sender. *)
Definition frameCharacteristics : list Z :=
  [ ZT_RULE_PACKET_CHARACTERISTICS_INBOUND;
    ZT_RULE_PACKET_CHARACTERISTICS_MULTICAST;
    ZT_RULE_PACKET_CHARACTERISTICS_BROADCAST;
    ZT_RULE_PACKET_CHARACTERISTICS_SENDER_IP_AUTHENTICATED;
    ZT_RULE_PACKET_CHARACTERISTICS_SENDER_MAC_AUTHENTICATED ].

(** The TCP flags, from the lowest bit up. *)
Definition tcpCharacteristics : list Z :=
  [ ZT_RULE_PACKET_CHARACTERISTICS_TCP_FIN;
    ZT_RULE_PACKET_CHARACTERISTICS_TCP_SYN;
    ZT_RULE_PACKET_CHARACTERISTICS_TCP_RST;
    ZT_RULE_PACKET_CHARACTERISTICS_TCP_PSH;
    ZT_RULE_PACKET_CHARACTERISTICS_TCP_ACK;
    ZT_RULE_PACKET_CHARACTERISTICS_TCP_URG;
    ZT_RULE_PACKET_CHARACTERISTICS_TCP_ECE;
    ZT_RULE_PACKET_CHARACTERISTICS_TCP_CWR;
    ZT_RULE_PACKET_CHARACTERISTICS_TCP_NS;
    ZT_RULE_PACKET_CHARACTERISTICS_TCP_RESERVED_2;
    ZT_RULE_PACKET_CHARACTERISTICS_TCP_RESERVED_1;
    ZT_RULE_PACKET_CHARACTERISTICS_TCP_RESERVED_0 ].

Definition allCharacteristics : list Z := frameCharacteristics ++ tcpCharacteristics.

(** Trace flags *)
Definition ZT_TRACE_FLAG_VL1 : Z := 0x01.
Definition ZT_TRACE_FLAG_VL2 : Z := 0x02.
Definition ZT_TRACE_FLAG_VL2_FILTER : Z := 0x04.
Definition ZT_TRACE_FLAG_VL2_MULTICAST : Z := 0x08.

Definition traceFlags : list Z :=
  [ ZT_TRACE_FLAG_VL1; ZT_TRACE_FLAG_VL2; ZT_TRACE_FLAG_VL2_FILTER;
    ZT_TRACE_FLAG_VL2_MULTICAST ].

(** Local trust flags of a certificate *)
Definition localTrustFlags : list Z :=
  [ Cert.ZT_CERTIFICATE_LOCAL_TRUST_FLAG_ROOT_CA;
    Cert.ZT_CERTIFICATE_LOCAL_TRUST_FLAG_ZEROTIER_ROOT_SET ].

(** The usual C idioms on a flag word [w]: [w & f], [w | f], [w & ~f]. *)
Definition hasFlag (w f : Z) : bool := negb (Z.land w f =? 0).
Definition setFlag (w f : Z) : Z := Z.lor w f.
Definition clearFlag (w f : Z) : Z := Z.land w (Z.lnot f).

(** The word with exactly the flags of [fs] set. *)
Definition flagWord (fs : list Z) : Z := fold_right Z.lor 0 fs.

(** A family of flags: each one a single bit below [width], no bit twice. *)
Definition singleBits (width : Z) (fs : list Z) : Prop :=
  List.NoDup fs /\ forall f, In f fs -> exists k, 0 <= k < width /\ f = 2 ^ k.

End Flags.

(* ------------------------------------------------------------------ *)
(** ** Size limits *)

Module Limits.

Definition ZT_MAX_NETWORK_SHORT_NAME_LENGTH : Z := 127.
Definition ZT_MAX_NETWORK_ROUTES : Z := 64.
Definition ZT_MAX_ZT_ASSIGNED_ADDRESSES : Z := 32.
Definition ZT_MAX_NETWORK_SPECIALISTS : Z := 256.
Definition ZT_RULES_ENGINE_REVISION : Z := 1.
Definition ZT_MAX_NETWORK_RULES : Z := 1024.
Definition ZT_MAX_NETWORK_CAPABILITIES : Z := 128.
Definition ZT_MAX_NETWORK_TAGS : Z := 128.
Definition ZT_MAX_PEER_NETWORK_PATHS : Z := 16.
Definition ZT_MAX_CAPABILITY_RULES : Z := 64.
Definition ZT_MAX_CERTIFICATES_OF_OWNERSHIP : Z := 4.

(** The default virtual MTU named in the comment on ZT_DEFAULT_UDP_MTU. *)
Definition defaultVirtualMTU : Z := 2800.

End Limits.

(* ================================================================== *)
(** * Theorems *)

Module ConstantsFacts.
Import Constants.

Lemma clipPhysicalMTU_max (mtu : Z) : clipPhysicalMTU mtu = Z.max mtu ZT_MIN_UDP_MTU.
Proof.
  unfold clipPhysicalMTU. destruct (Z.ltb_spec mtu ZT_MIN_UDP_MTU); lia.
Qed.

(** C9. The wire-level constants: the default UDP port is 9993, the minimum
    physical UDP MTU is 1400 and smaller values are clipped up to it (larger
    ones are kept), and the default physical UDP payload size is 1432,
    which lies between the minimum and the largest usable payload. *)
Theorem wire_constants :
  ZT_DEFAULT_PORT = 9993 /\
  ZT_MIN_UDP_MTU = 1400 /\
  ZT_DEFAULT_UDP_MTU = 1432 /\
  (forall mtu, 1400 <= clipPhysicalMTU mtu) /\
  (forall mtu, mtu < 1400 -> clipPhysicalMTU mtu = 1400) /\
  (forall mtu, 1400 <= mtu -> clipPhysicalMTU mtu = mtu) /\
  ZT_MIN_UDP_MTU <= ZT_DEFAULT_UDP_MTU <= ZT_MAX_UDP_PHYSPAYLOAD.
Proof.
  repeat split; try reflexivity; try (intros mtu; rewrite clipPhysicalMTU_max);
    unfold ZT_MIN_UDP_MTU, ZT_DEFAULT_UDP_MTU, ZT_MAX_UDP_PHYSPAYLOAD; lia.
Qed.

Lemma wire_constants_witness :
  clipPhysicalMTU 576 = 1400 /\ clipPhysicalMTU 9000 = 9000.
Proof.
  destruct wire_constants as (_ & _ & _ & _ & Hlow & Hhigh & _).
  split; [apply Hlow | apply Hhigh]; lia.
Defined.

End ConstantsFacts.

Module ResultCodeFacts.
Import ResultCode.

Lemma int_cast_id (x : Z) : INT_MIN <= x <= INT_MAX -> int_cast x = x.
Proof.
  unfold INT_MIN, INT_MAX, int_cast. intros H.
  rewrite Z.mod_small by lia. lia.
Qed.

Lemma isFatal_range (x : Z) :
  INT_MIN <= x <= INT_MAX ->
  (ZT_ResultCode_isFatal x = true <-> 100 <= x < 1000).
Proof.
  intros H. unfold ZT_ResultCode_isFatal. rewrite (int_cast_id x H).
  rewrite andb_true_iff, Z.geb_le, Z.ltb_lt. lia.
Qed.

(** C8. [ZT_ResultCode_isFatal(x)] holds exactly when [100 <= x < 1000]
    (for [x] an [int]); so OK (0) and every code from 1000 upwards are
    classified non-fatal, and among the enumerators exactly out-of-memory
    (100), data-store-failed (101) and internal (102) are fatal. *)
Theorem isFatal_spec :
  (forall x, INT_MIN <= x <= INT_MAX ->
     (ZT_ResultCode_isFatal x = true <-> 100 <= x < 1000)) /\
  ZT_ResultCode_isFatal (code ZT_RESULT_OK) = false /\
  (forall x, 1000 <= x <= INT_MAX -> ZT_ResultCode_isFatal x = false) /\
  code ZT_RESULT_FATAL_ERROR_OUT_OF_MEMORY = 100 /\
  code ZT_RESULT_FATAL_ERROR_DATA_STORE_FAILED = 101 /\
  code ZT_RESULT_FATAL_ERROR_INTERNAL = 102 /\
  (forall r, ZT_ResultCode_isFatal (code r) = true <->
     r = ZT_RESULT_FATAL_ERROR_OUT_OF_MEMORY \/
     r = ZT_RESULT_FATAL_ERROR_DATA_STORE_FAILED \/
     r = ZT_RESULT_FATAL_ERROR_INTERNAL).
Proof.
  split; [exact isFatal_range|].
  split; [reflexivity|].
  split.
  { intros x Hx. apply not_true_is_false. intros Hf.
    apply isFatal_range in Hf; unfold INT_MIN, INT_MAX in *; lia. }
  repeat (split; [reflexivity|]).
  intros r. split.
  - destruct r; cbn; intros Hf; try discriminate Hf; auto.
  - intros [-> | [-> | ->]]; reflexivity.
Qed.

Lemma isFatal_spec_witness :
  ZT_ResultCode_isFatal 999 = true /\ ZT_ResultCode_isFatal 1005 = false.
Proof.
  destruct isFatal_spec as (Hiff & _ & Hnon & _).
  split.
  - apply Hiff; unfold INT_MIN, INT_MAX; lia.
  - apply Hnon; unfold INT_MAX; lia.
Defined.

End ResultCodeFacts.

Module RulesFacts.
Import Rules.

Lemma land_low_bits (t : Z) (n : Z) : 0 <= n -> Z.land t (2 ^ n - 1) = t mod 2 ^ n.
Proof.
  intros Hn. replace (2 ^ n - 1) with (Z.ones n) by (rewrite Z.ones_equiv; lia).
  apply Z.land_ones; lia.
Qed.

Lemma land_single_bit (t : Z) (n : Z) :
  0 <= n -> Z.land t (2 ^ n) = if Z.testbit t n then 2 ^ n else 0.
Proof.
  intros Hn. apply Z.bits_inj'. intros k Hk.
  rewrite Z.land_spec, Z.pow2_bits_eqb by lia.
  destruct (Z.eqb_spec n k) as [->|Hne].
  - destruct (Z.testbit t k); cbn.
    + rewrite Z.pow2_bits_true by lia. reflexivity.
    + rewrite Z.bits_0. reflexivity.
  - rewrite andb_false_r.
    destruct (Z.testbit t n).
    + rewrite Z.pow2_bits_false by lia. reflexivity.
    + rewrite Z.bits_0. reflexivity.
Qed.

Lemma ruleType_low6 (t : Z) : ruleType t = t mod 64.
Proof. unfold ruleType. exact (land_low_bits t 6 ltac:(lia)). Qed.

Lemma ruleNot_bit7 (t : Z) : ruleNot t = Z.testbit t 7.
Proof.
  unfold ruleNot. change 0x80 with (2 ^ 7). rewrite land_single_bit by lia.
  destruct (Z.testbit t 7); reflexivity.
Qed.

Lemma ruleOr_bit6 (t : Z) : ruleOr t = Z.testbit t 6.
Proof.
  unfold ruleOr. change 0x40 with (2 ^ 6). rewrite land_single_bit by lia.
  destruct (Z.testbit t 6); reflexivity.
Qed.

Lemma code_range (rt : ZT_VirtualNetworkRuleType) :
  match kind rt with
  | ACTION => 0 <= code rt <= 15
  | MATCH => 16 <= code rt <= 63
  end.
Proof. destruct rt; cbn; lia. Qed.

Lemma mkTag_decode (rt : ZT_VirtualNetworkRuleType) (n o : bool) :
  ruleType (mkTag rt n o) = code rt /\
  ruleNot (mkTag rt n o) = n /\
  ruleOr (mkTag rt n o) = o /\
  0 <= mkTag rt n o < 256.
Proof. destruct rt, n, o; vm_compute; repeat split; congruence. Qed.

(** C1. In a rules-table entry the type is the low 6 bits of the tag byte
    (mask 0x3f), bit 7 (0x80) is the NOT modifier and bit 6 (0x40) the OR
    modifier: the three fields are independent and together make up the
    byte.  Every ACTION enumerator has a code in 0..15 and every MATCH
    enumerator a code in 16..63, so each type fits the 6-bit field and is
    read back from a tag whatever the modifiers. *)
Theorem rule_tag_layout :
  (forall t, ruleType t = t mod 2 ^ 6 /\
             ruleNot t = Z.testbit t 7 /\
             ruleOr t = Z.testbit t 6) /\
  (forall t, 0 <= t < 256 ->
     t = ruleType t + (if ruleOr t then 0x40 else 0)
                    + (if ruleNot t then 0x80 else 0)) /\
  (forall rt, kind rt = ACTION -> 0 <= code rt <= 15) /\
  (forall rt, kind rt = MATCH -> 16 <= code rt <= 63) /\
  (forall rt, isActionCode (code rt) = true <-> kind rt = ACTION) /\
  (forall rt n o, ruleType (mkTag rt n o) = code rt /\
                  ruleNot (mkTag rt n o) = n /\
                  ruleOr (mkTag rt n o) = o).
Proof.
  split.
  { intros t. split; [apply ruleType_low6|].
    split; [apply ruleNot_bit7 | apply ruleOr_bit6]. }
  split.
  { intros t Ht. rewrite ruleNot_bit7, ruleOr_bit6, ruleType_low6.
    assert (H6 : Z.testbit t 6 = Z.odd (t / 64))
      by (rewrite Z.testbit_odd, Z.shiftr_div_pow2 by lia; reflexivity).
    assert (H7 : Z.testbit t 7 = Z.odd (t / 64 / 2)).
    { rewrite Z.testbit_odd, Z.shiftr_div_pow2 by lia.
      rewrite Z.div_div by lia. reflexivity. }
    rewrite H6, H7. change (2 ^ 6) with 64.
    pose proof (Z.div_mod t 64 ltac:(lia)) as D64.
    pose proof (Z.mod_pos_bound t 64 ltac:(lia)) as B64.
    assert (Hc : t / 64 = 0 \/ t / 64 = 1 \/ t / 64 = 2 \/ t / 64 = 3) by lia.
    destruct Hc as [E | [E | [E | E]]]; rewrite E in *;
      repeat match goal with
             | |- context [Z.odd ?a] =>
                 let v := eval vm_compute in (Z.odd a) in
                 change (Z.odd a) with v
             end; cbv iota; lia. }
  split.
  { intros rt Hk. pose proof (code_range rt) as H. rewrite Hk in H. exact H. }
  split.
  { intros rt Hk. pose proof (code_range rt) as H. rewrite Hk in H. exact H. }
  split.
  { intros rt. destruct rt; cbn; split; intros H; congruence. }
  intros rt n o. pose proof (mkTag_decode rt n o). tauto.
Qed.

Lemma rule_tag_layout_witness :
  0xE5 = ruleType 0xE5 + (if ruleOr 0xE5 then 0x40 else 0)
                       + (if ruleNot 0xE5 then 0x80 else 0) /\
  16 <= code ZT_NETWORK_RULE_MATCH_ETHERTYPE <= 63.
Proof.
  destruct rule_tag_layout as (_ & Hsum & _ & Hmatch & _).
  split; [apply Hsum; lia | apply Hmatch; reflexivity].
Defined.

End RulesFacts.

Module RulesEngineFacts.
Import Rules RulesEngine.

Section EvaluationFacts.

Variable Frame : Type.
Variable rawMatch : ZT_VirtualNetworkRule -> Frame -> bool.
Variable frame : Frame.

Local Abbreviation evalFrom := (RulesEngine.evalFrom Frame rawMatch frame).
Local Abbreviation evaluate := (RulesEngine.evaluate Frame rawMatch frame).

(** What [takeAction] records and when it accepts. *)
Lemma takeAction_spec rn r st :
  match takeAction rn r st with
  | Continue st' =>
      fired st' = (rn, ruleType (t r)) :: fired st /\
      ruleType (t r) <> code ZT_NETWORK_RULE_ACTION_ACCEPT
  | Stop vd rd st' =>
      fired st' = (rn, ruleType (t r)) :: fired st /\
      (vd = VERDICT_ACCEPT <-> ruleType (t r) = code ZT_NETWORK_RULE_ACTION_ACCEPT)
  end.
Proof.
  unfold takeAction.
  destruct (Z.eqb_spec (ruleType (t r)) (code ZT_NETWORK_RULE_ACTION_DROP)) as [E0|N0].
  { split; [reflexivity|]. rewrite E0. cbn. split; discriminate. }
  destruct (Z.eqb_spec (ruleType (t r)) (code ZT_NETWORK_RULE_ACTION_ACCEPT)) as [E1|N1].
  { split; [reflexivity|]. tauto. }
  repeat match goal with
         | |- context [if ?c then _ else _] => destruct c
         end; cbn; (split; [reflexivity|]); try assumption;
    (split; [discriminate | intros; contradiction]).
Qed.

Lemma hasAccept_cons rn ty l :
  hasAccept ((rn, ty) :: l) <->
  ty = code ZT_NETWORK_RULE_ACTION_ACCEPT \/ hasAccept l.
Proof.
  unfold hasAccept. split.
  - intros [k [Hk | Hk]]; [left; congruence | right; eauto].
  - intros [-> | [k Hk]]; [exists rn; left; reflexivity | exists k; right; exact Hk].
Qed.

(** Case analysis on what one entry does to the evaluation. *)
Ltac step_entry rn r st :=
  cbn [RulesEngine.evalFrom];
  destruct (isAction r) eqn:?;
  [ destruct (acc st) eqn:?;
    [ pose proof (takeAction_spec rn r st) as Hact;
      destruct (takeAction rn r st) as [st1 | vd rd st1];
      destruct Hact as [Hfired Hty] | ] | ].

Lemma evalFrom_end_drop rules : forall rn st,
  reachedEnd (evalFrom rn rules st) = true ->
  verdict (evalFrom rn rules st) = VERDICT_DROP.
Proof.
  induction rules as [|r rest IH]; intros rn st; [reflexivity|].
  step_entry rn r st; cbn; auto; discriminate.
Qed.

Lemma evalFrom_fired_mono rules : forall rn st x,
  In x (fired st) -> In x (fired (final (evalFrom rn rules st))).
Proof.
  induction rules as [|r rest IH]; intros rn st x Hx; [exact Hx|].
  step_entry rn r st; cbn; try (apply IH; cbn); try rewrite Hfired;
    cbn; auto.
Qed.

(** The verdict is ACCEPT exactly when an ACCEPT is among the actions
    taken, provided none was recorded before the evaluation started. *)
Lemma evalFrom_accept_iff rules : forall rn st,
  ~ hasAccept (fired st) ->
  (verdict (evalFrom rn rules st) = VERDICT_ACCEPT <->
   hasAccept (fired (final (evalFrom rn rules st)))).
Proof.
  induction rules as [|r rest IH]; intros rn st Hst.
  - cbn. split; [discriminate | intros H; contradiction].
  - step_entry rn r st.
    + apply IH. cbn. rewrite Hfired, hasAccept_cons. tauto.
    + cbn. rewrite Hfired, hasAccept_cons. tauto.
    + apply IH. exact Hst.
    + apply IH. exact Hst.
Qed.

Lemma evalFrom_app pre post : forall rn st,
  evalFrom rn (pre ++ post) st =
  if reachedEnd (evalFrom rn pre st)
  then evalFrom (rn + length pre) post (final (evalFrom rn pre st))
  else evalFrom rn pre st.
Proof.
  induction pre as [|r rest IH]; intros rn st.
  - cbn. rewrite Nat.add_0_r. reflexivity.
  - cbn [app length]. replace (rn + S (length rest))%nat
      with (S rn + length rest)%nat by lia.
    step_entry rn r st; cbn; try reflexivity; apply IH.
Qed.

(** After an action that did not end the evaluation, a new block begins:
    [acc] is true and there is no preceding MATCH. *)
Lemma evalFrom_action_resets b : forall rn st,
  isAction b = true ->
  reachedEnd (evalFrom rn [b] st) = true ->
  acc (final (evalFrom rn [b] st)) = true /\
  prevMatch (final (evalFrom rn [b] st)) = false.
Proof.
  intros rn st Hb. cbn [RulesEngine.evalFrom]. rewrite Hb.
  destruct (acc st); [destruct (takeAction rn b st)|]; cbn; auto; discriminate.
Qed.

Lemma fires_at_block_start a post : forall rn st,
  isAction a = true -> acc st = true ->
  In (rn, ruleType (t a)) (fired (final (evalFrom rn (a :: post) st))).
Proof.
  intros rn st Ha Hacc. cbn [RulesEngine.evalFrom]. rewrite Ha, Hacc.
  pose proof (takeAction_spec rn a st) as Hact.
  destruct (takeAction rn a st) as [st1 | vd rd st1]; destruct Hact as [Hfired _].
  - apply evalFrom_fired_mono. cbn. rewrite Hfired. left. reflexivity.
  - cbn. rewrite Hfired. left. reflexivity.
Qed.

Lemma action_without_matches_fires pre a post :
  isAction a = true ->
  (pre = [] \/ exists pre' b, pre = pre' ++ [b] /\ isAction b = true) ->
  reachedEnd (evaluate pre) = true ->
  In (length pre, ruleType (t a)) (fired (final (evaluate (pre ++ a :: post)))).
Proof.
  intros Ha Hpre Hend. unfold RulesEngine.evaluate in *.
  rewrite evalFrom_app, Hend. cbn [Nat.add].
  apply fires_at_block_start; [exact Ha|].
  destruct Hpre as [-> | (pre' & b & -> & Hb)]; [reflexivity|].
  rewrite evalFrom_app in Hend |- *.
  destruct (reachedEnd (evalFrom 0 pre' initialState)) eqn:Hend'.
  - apply evalFrom_action_resets; assumption.
  - congruence.
Qed.

Lemma evaluate_accept_iff rules :
  verdict (evaluate rules) = VERDICT_ACCEPT <-> acceptFired (evaluate rules).
Proof.
  apply (evalFrom_accept_iff rules 0%nat initialState). intros [k []].
Qed.

Lemma no_accept_drop rules :
  ~ acceptFired (evaluate rules) -> verdict (evaluate rules) = VERDICT_DROP.
Proof.
  intros Hno. destruct (verdict (evaluate rules)) eqn:Hv; [reflexivity|].
  exfalso. apply Hno. apply evaluate_accept_iff. exact Hv.
Qed.

Local Abbreviation entryMatches := (RulesEngine.entryMatches rawMatch frame).

Lemma evalFrom_match r rest rn st :
  isAction r = false ->
  evalFrom rn (r :: rest) st = evalFrom (S rn) rest (stepMatch Frame rawMatch frame r st).
Proof. intros Hr. cbn [RulesEngine.evalFrom]. rewrite Hr. reflexivity. Qed.

Lemma evalFrom_skip a rest rn st :
  isAction a = true -> acc st = false ->
  evalFrom rn (a :: rest) st = evalFrom (S rn) rest (nextBlock st).
Proof. intros Ha Hacc. cbn [RulesEngine.evalFrom]. rewrite Ha, Hacc. reflexivity. Qed.

(** When no MATCH entry holds for the frame and every action follows a
    MATCH, no action is taken and the table runs to its end. *)
Lemma evalFrom_matches_nothing rules : forall rn st prev,
  (forall r, In r rules -> isAction r = false -> entryMatches r = false) ->
  guardedFrom prev rules = true ->
  prevMatch st = prev -> (prev = true -> acc st = false) ->
  verdict (evalFrom rn rules st) = VERDICT_DROP /\
  reachedEnd (evalFrom rn rules st) = true /\
  fired (final (evalFrom rn rules st)) = fired st.
Proof.
  induction rules as [|r rest IH]; intros rn st prev Hno Hg Hprev Hacc.
  - cbn. auto.
  - cbn [guardedFrom] in Hg. destruct (isAction r) eqn:Hr.
    + apply andb_true_iff in Hg as [Hp Hg]. subst prev.
      rewrite evalFrom_skip by auto.
      apply (IH (S rn) (nextBlock st) false);
        [ intros x Hx; apply Hno; right; exact Hx
        | exact Hg | reflexivity | discriminate ].
    + rewrite evalFrom_match by exact Hr.
      assert (He : entryMatches r = false) by (apply Hno; [left; reflexivity | exact Hr]).
      apply (IH (S rn) (stepMatch Frame rawMatch frame r st) true);
        [ intros x Hx; apply Hno; right; exact Hx
        | exact Hg | reflexivity | ].
      intros _. unfold stepMatch. cbn [acc].
      fold (entryMatches r). rewrite He.
      destruct (prevMatch st) eqn:Hp.
      * rewrite Hacc by congruence. destruct (ruleOr (t r)); reflexivity.
      * rewrite andb_false_r, andb_false_r. reflexivity.
Qed.

(** A run of AND-combined MATCH entries leaves in [acc] the conjunction of
    the entries, and touches nothing else. *)
Lemma evalFrom_and_block ms : forall rn st tail,
  (forall m, In m ms -> andMatch m = true) ->
  exists st',
    evalFrom rn (ms ++ tail) st = evalFrom (rn + length ms) tail st' /\
    acc st' = acc st && forallb entryMatches ms /\
    observers st' = observers st /\ qos st' = qos st /\ fired st' = fired st.
Proof.
  induction ms as [|m ms IH]; intros rn st tail Hms.
  - exists st. cbn. rewrite Nat.add_0_r, andb_true_r. auto.
  - assert (Hm : andMatch m = true) by (apply Hms; left; reflexivity).
    unfold andMatch in Hm. apply andb_true_iff in Hm as [Hact Hor].
    apply negb_true_iff in Hact, Hor.
    destruct (IH (S rn) (stepMatch Frame rawMatch frame m st) tail)
      as (st' & Heq & Hacc & Hobs & Hqos & Hfired).
    { intros x Hx. apply Hms. right. exact Hx. }
    exists st'. cbn [app length]. rewrite evalFrom_match by exact Hact.
    replace (rn + S (length ms))%nat with (S rn + length ms)%nat by lia.
    split; [exact Heq|]. rewrite Hacc, Hobs, Hqos, Hfired.
    unfold stepMatch. cbn [acc observers qos fired forallb].
    fold (entryMatches m). rewrite Hor. cbn [andb].
    rewrite andb_assoc. auto.
Qed.

(** A run of OR-combined MATCH entries after a MATCH adds their disjunction
    to [acc]. *)
Lemma evalFrom_or_block ms : forall rn st tail,
  prevMatch st = true ->
  (forall m, In m ms -> orMatch m = true) ->
  exists st',
    evalFrom rn (ms ++ tail) st = evalFrom (rn + length ms) tail st' /\
    acc st' = acc st || existsb entryMatches ms /\
    observers st' = observers st /\ qos st' = qos st /\ fired st' = fired st.
Proof.
  induction ms as [|m ms IH]; intros rn st tail Hprev Hms.
  - exists st. cbn. rewrite Nat.add_0_r, orb_false_r. auto.
  - assert (Hm : orMatch m = true) by (apply Hms; left; reflexivity).
    unfold orMatch in Hm. apply andb_true_iff in Hm as [Hact Hor].
    apply negb_true_iff in Hact.
    destruct (IH (S rn) (stepMatch Frame rawMatch frame m st) tail)
      as (st' & Heq & Hacc & Hobs & Hqos & Hfired).
    { reflexivity. }
    { intros x Hx. apply Hms. right. exact Hx. }
    exists st'. cbn [app length]. rewrite evalFrom_match by exact Hact.
    replace (rn + S (length ms))%nat with (S rn + length ms)%nat by lia.
    split; [exact Heq|]. rewrite Hacc, Hobs, Hqos, Hfired.
    unfold stepMatch. cbn [acc observers qos fired existsb].
    fold (entryMatches m). rewrite Hor, Hprev. cbn [andb].
    rewrite orb_assoc. auto.
Qed.

(** What an action at the end of a block does, given the block's value. *)
Lemma block_then_action a rest rn st' (value : bool) :
  isAction a = true ->
  acc st' = value -> observers st' = [] -> qos st' = None -> fired st' = [] ->
  (value = true ->
     In (rn, ruleType (t a)) (fired (final (evalFrom rn (a :: rest) st')))) /\
  (value = false ->
     evalFrom rn (a :: rest) st' = evalFrom (S rn) rest initialState).
Proof.
  intros Ha Hacc Hobs Hqos Hfired. split; intros Hv; subst value.
  - apply fires_at_block_start; assumption.
  - rewrite evalFrom_skip by assumption. f_equal.
    unfold nextBlock, initialState. rewrite Hobs, Hqos, Hfired. reflexivity.
Qed.

Lemma and_block_action ms a rest :
  (forall m, In m ms -> andMatch m = true) -> isAction a = true ->
  (forallb entryMatches ms = true ->
     In (length ms, ruleType (t a)) (fired (final (evaluate (ms ++ a :: rest))))) /\
  (forallb entryMatches ms = false ->
     evaluate (ms ++ a :: rest) = evalFrom (S (length ms)) rest initialState).
Proof.
  intros Hms Ha. unfold RulesEngine.evaluate.
  destruct (evalFrom_and_block ms 0%nat initialState (a :: rest) Hms)
    as (st' & -> & Hacc & Hobs & Hqos & Hfired).
  cbn [Nat.add]. cbn [acc initialState andb] in Hacc.
  apply block_then_action; assumption.
Qed.

Lemma or_block_action m ms a rest :
  isAction m = false -> (forall x, In x ms -> orMatch x = true) ->
  isAction a = true ->
  (existsb entryMatches (m :: ms) = true ->
     In (S (length ms), ruleType (t a))
        (fired (final (evaluate (m :: ms ++ a :: rest))))) /\
  (existsb entryMatches (m :: ms) = false ->
     evaluate (m :: ms ++ a :: rest) = evalFrom (S (S (length ms))) rest initialState).
Proof.
  intros Hm Hms Ha. unfold RulesEngine.evaluate.
  rewrite evalFrom_match by exact Hm.
  destruct (evalFrom_or_block ms 1%nat (stepMatch Frame rawMatch frame m initialState)
                              (a :: rest) eq_refl Hms)
    as (st' & -> & Hacc & Hobs & Hqos & Hfired).
  cbn [Nat.add].
  apply block_then_action; try assumption.
  rewrite Hacc. unfold stepMatch. cbn [acc prevMatch initialState existsb].
  fold (entryMatches m). rewrite andb_false_r. reflexivity.
Qed.

End EvaluationFacts.

(** C2. For every rules table and every frame (whatever frames are and
    however single entries match them): if evaluation reaches the end of
    the table without an ACCEPT action having fired, the verdict is DROP.
    More precisely the verdict is ACCEPT exactly when an ACCEPT fired, and
    an action that is not preceded by a MATCH (it opens the table or
    follows another action) fires whenever evaluation gets to it.

    What fires is decided by how the entries match the frame.  A frame
    that no MATCH entry of the table holds for (NOT applied) is dropped,
    with no action taken, when every action follows a MATCH.  The action
    closing a first block of AND-combined matches fires when all of them
    hold, and is skipped otherwise, evaluation going on behind it as from
    a fresh start; the same with the disjunction for a block of
    OR-combined matches.  So a table "matches, then ACCEPT" accepts
    exactly the frames all its matches hold for. *)
Theorem default_verdict_is_drop
    (Frame : Type) (rawMatch : ZT_VirtualNetworkRule -> Frame -> bool)
    (frame : Frame) (rules : list ZT_VirtualNetworkRule) :
  let res := evaluate Frame rawMatch frame rules in
  (reachedEnd res = true -> ~ acceptFired res -> verdict res = VERDICT_DROP) /\
  (verdict res = VERDICT_ACCEPT <-> acceptFired res) /\
  (fired (final res) = [] -> verdict res = VERDICT_DROP) /\
  (forall pre a post,
      rules = pre ++ a :: post ->
      isAction a = true ->
      (pre = [] \/ exists pre' b, pre = pre' ++ [b] /\ isAction b = true) ->
      reachedEnd (evaluate Frame rawMatch frame pre) = true ->
      In (length pre, ruleType (t a)) (fired (final res))) /\
  ((forall r, In r rules -> isAction r = false ->
              entryMatches rawMatch frame r = false) ->
   guarded rules = true ->
   verdict res = VERDICT_DROP /\ reachedEnd res = true /\ fired (final res) = []) /\
  (forall ms a rest,
      rules = ms ++ a :: rest ->
      (forall m, In m ms -> andMatch m = true) ->
      isAction a = true ->
      (forallb (entryMatches rawMatch frame) ms = true ->
         In (length ms, ruleType (t a)) (fired (final res))) /\
      (forallb (entryMatches rawMatch frame) ms = false ->
         res = evalFrom Frame rawMatch frame (S (length ms)) rest initialState)) /\
  (forall m ms a rest,
      rules = m :: ms ++ a :: rest ->
      isAction m = false ->
      (forall x, In x ms -> orMatch x = true) ->
      isAction a = true ->
      (existsb (entryMatches rawMatch frame) (m :: ms) = true ->
         In (S (length ms), ruleType (t a)) (fired (final res))) /\
      (existsb (entryMatches rawMatch frame) (m :: ms) = false ->
         res = evalFrom Frame rawMatch frame (S (S (length ms))) rest initialState)) /\
  (forall ms a,
      rules = ms ++ [a] ->
      (forall m, In m ms -> andMatch m = true) ->
      ruleType (t a) = code ZT_NETWORK_RULE_ACTION_ACCEPT ->
      (verdict res = VERDICT_ACCEPT <->
       forallb (entryMatches rawMatch frame) ms = true)).
Proof.
  intros res. subst res. repeat apply conj.
  - intros _. apply no_accept_drop.
  - apply evaluate_accept_iff.
  - apply evaluate_accept_iff.
  - intros Hnone. apply no_accept_drop. intros [k Hk].
    rewrite Hnone in Hk. exact Hk.
  - intros pre a post -> Ha Hpre Hend.
    apply action_without_matches_fires; assumption.
  - intros Hno Hg.
    destruct (evalFrom_matches_nothing Frame rawMatch frame rules 0%nat
                initialState false Hno Hg eq_refl ltac:(discriminate))
      as (Hv & He & Hf).
    auto.
  - intros ms a rest -> Hms Ha.
    apply and_block_action; assumption.
  - intros m ms a rest -> Hm Hms Ha.
    apply or_block_action; assumption.
  - intros ms a -> Hms Hty.
    assert (Ha : isAction a = true)
      by (unfold isAction; rewrite Hty; reflexivity).
    destruct (and_block_action Frame rawMatch frame ms a [] Hms Ha)
      as [Hall Hsome].
    destruct (forallb (entryMatches rawMatch frame) ms) eqn:Hb.
    + split; [reflexivity|]. intros _.
      apply evaluate_accept_iff. exists (length ms).
      rewrite <- Hty. apply Hall. reflexivity.
    + rewrite (Hsome eq_refl). cbn. split; discriminate.
Qed.

Lemma default_verdict_is_drop_witness :
  (reachedEnd (evaluate EthernetFrame ethernetRawMatch ipv4Frame arpAcceptRules) = true /\
   verdict (evaluate EthernetFrame ethernetRawMatch ipv4Frame arpAcceptRules)
     = VERDICT_DROP) /\
  verdict (evaluate EthernetFrame ethernetRawMatch arpFrame arpAcceptRules)
    = VERDICT_ACCEPT.
Proof.
  split.
  - pose proof (default_verdict_is_drop EthernetFrame ethernetRawMatch
                  ipv4Frame arpAcceptRules) as H.
    cbv zeta in H. destruct H as (_ & _ & _ & _ & Hnothing & _).
    destruct Hnothing as (Hv & He & _).
    + intros r [<- | [<- | []]] Hr; [reflexivity | discriminate Hr].
    + reflexivity.
    + split; [exact He | exact Hv].
  - pose proof (default_verdict_is_drop EthernetFrame ethernetRawMatch
                  arpFrame arpAcceptRules) as H.
    cbv zeta in H. destruct H as (_ & _ & _ & _ & _ & _ & _ & Haccept).
    apply (Haccept [mkRule (mkTag ZT_NETWORK_RULE_MATCH_ETHERTYPE false false)
                           (V_etherType 0x0806)]
                   (mkRule (mkTag ZT_NETWORK_RULE_ACTION_ACCEPT false false) (V_zt 0))).
    + reflexivity.
    + intros m [<- | []]. reflexivity.
    + reflexivity.
    + reflexivity.
Defined.

(** The open-ended table: for an IPv4 frame the TEE fires, the ARP match
    that follows has no action, and the table ends in DROP. *)
Example openEnded_ipv4 :
  reachedEnd (evaluate EthernetFrame ethernetRawMatch ipv4Frame openEndedRules) = true /\
  verdict (evaluate EthernetFrame ethernetRawMatch ipv4Frame openEndedRules) = VERDICT_DROP.
Proof. split; reflexivity. Qed.

(** NOT and OR at work: "not IPv4 or ARP, ACCEPT" lets an ARP frame
    through and drops an IPv4 frame. *)
Example notIpv4OrArp :
  verdict (evaluate EthernetFrame ethernetRawMatch arpFrame notIpv4OrArpRules)
    = VERDICT_ACCEPT /\
  verdict (evaluate EthernetFrame ethernetRawMatch ipv4Frame notIpv4OrArpRules)
    = VERDICT_DROP.
Proof. split; reflexivity. Qed.

(** The scenario "DROP all non-ARP": an IPv4 frame is dropped by the final
    DROP, an ARP frame is accepted. *)
Example arpOnly_ipv4_dropped :
  verdict (evaluate EthernetFrame ethernetRawMatch ipv4Frame arpOnlyRules) = VERDICT_DROP /\
  fired (final (evaluate EthernetFrame ethernetRawMatch ipv4Frame arpOnlyRules)) = [(2%nat, 0)].
Proof. split; reflexivity. Qed.

Example arpOnly_arp_accepted :
  verdict (evaluate EthernetFrame ethernetRawMatch arpFrame arpOnlyRules) = VERDICT_ACCEPT /\
  fired (final (evaluate EthernetFrame ethernetRawMatch arpFrame arpOnlyRules)) = [(1%nat, 1)].
Proof. split; reflexivity. Qed.

(** A skipped action resets [acc]: the TEE of [openEndedRules] is not taken
    for an ARP frame, and the table still ends in DROP. *)
Example openEnded_arp :
  verdict (evaluate EthernetFrame ethernetRawMatch arpFrame openEndedRules) = VERDICT_DROP /\
  observers (final (evaluate EthernetFrame ethernetRawMatch arpFrame openEndedRules)) = [] /\
  observers (final (evaluate EthernetFrame ethernetRawMatch ipv4Frame openEndedRules))
    = [0x1122334455].
Proof. repeat split; reflexivity. Qed.

End RulesEngineFacts.

Module CertFacts.
Import Cert.


Lemma newestConsistent_empty : newestConsistent emptyStore.
Proof. intros serial c k H. cbn in H. rewrite lookup_empty in H. discriminate. Qed.

(** Adding a certificate keeps the newest pointers right, provided no other
    stored certificate has the same (issuer, unique-ID) pair. *)
Lemma newestConsistent_add (s : CertificateStore) (c : ZT_Certificate) (trust : Z) :
  newestConsistent s ->
  (forall serial c' k, serial <> serialNo c -> certs s !! serial = Some c' ->
                       certKey c' = Some k -> certKey c <> Some k) ->
  newestConsistent (addCertificate c trust s).
Proof.
  intros Hs Hfresh serial c' k Hc' Hk'. cbn in Hc' |- *.
  destruct (decide (serialNo c = serial)) as [<- | Hne].
  - rewrite lookup_insert_eq in Hc'. injection Hc' as <-.
    rewrite Hk'. apply lookup_insert_eq.
  - rewrite lookup_insert_ne in Hc' by exact Hne.
    pose proof (Hs serial c' k Hc' Hk') as Hp.
    destruct (certKey c) as [kc|] eqn:Ekc; [|exact Hp].
    rewrite lookup_insert_ne; [exact Hp|].
    intros ->. apply (Hfresh serial c' k); auto.
Qed.

Lemma newestConsistent_erase (s : CertificateStore) (prev : list Z) :
  newestConsistent s -> newestConsistent (eraseCertificate prev s).
Proof.
  intros Hs serial c k Hc Hk. cbn in Hc |- *.
  destruct (decide (prev = serial)) as [-> | Hne].
  - rewrite lookup_delete_eq in Hc. discriminate.
  - rewrite lookup_delete_ne in Hc by exact Hne. eauto.
Qed.

Section StoreFacts.

Variable SHA384 : list Z -> list Z.
Variable encode : ZT_Certificate -> bool -> list Z.
Variable encodeSubject : ZT_Certificate_Subject -> list Z.
Variable identityVerify : ZT_Identity -> list Z -> list Z -> bool.
Variable locatorVerify : ZT_Locator -> ZT_Identity -> bool.
Variable uniqueIdVerify : list Z -> list Z -> list Z -> bool.

Local Abbreviation verifyCertificate :=
  (Cert.verifyCertificate SHA384 encode encodeSubject identityVerify
                          locatorVerify uniqueIdVerify).
Local Abbreviation insert :=
  (Cert.insert SHA384 encode encodeSubject identityVerify
               locatorVerify uniqueIdVerify).
Local Abbreviation verifiedStore :=
  (Cert.verifiedStore SHA384 encode encodeSubject identityVerify
                      locatorVerify uniqueIdVerify).


(** An insertion that reports an error leaves the store as it was. *)
Lemma insert_error_unchanged s c trust verified now :
  fst (insert s c trust verified now) <> ZT_CERTIFICATE_ERROR_NONE ->
  snd (insert s c trust verified now) = s.
Proof.
  unfold Cert.insert.
  destruct (if verified then ZT_CERTIFICATE_ERROR_NONE else verifyCertificate c now);
    try reflexivity.
  destruct (certKey c) as [k|]; [|cbn; congruence].
  destruct (newest s !! k) as [prev|]; [|cbn; congruence].
  destruct (certs s !! prev) as [old|]; [|cbn; congruence].
  destruct (subjectTimestamp (subject c) <? subjectTimestamp (subject old));
    cbn; congruence.
Qed.

(** What a successful insertion stores. *)
Lemma insert_none_cases s c trust verified now :
  fst (insert s c trust verified now) = ZT_CERTIFICATE_ERROR_NONE ->
  (verified = true \/ verifyCertificate c now = ZT_CERTIFICATE_ERROR_NONE) /\
  (snd (insert s c trust verified now) = addCertificate c trust s /\
   (forall k, certKey c = Some k ->
              newest s !! k = None \/
              exists prev, newest s !! k = Some prev /\ certs s !! prev = None)
   \/
   exists k prev old,
     certKey c = Some k /\ newest s !! k = Some prev /\
     certs s !! prev = Some old /\
     subjectTimestamp (subject old) <= subjectTimestamp (subject c) /\
     snd (insert s c trust verified now)
       = addCertificate c trust (eraseCertificate prev s)).
Proof.
  unfold Cert.insert.
  assert (Hv : forall e, (if verified then ZT_CERTIFICATE_ERROR_NONE
                          else verifyCertificate c now) = e ->
                         e = ZT_CERTIFICATE_ERROR_NONE ->
                         verified = true \/
                         verifyCertificate c now = ZT_CERTIFICATE_ERROR_NONE).
  { intros e He ->. destruct verified; auto. }
  destruct (if verified then ZT_CERTIFICATE_ERROR_NONE else verifyCertificate c now)
    eqn:Everify; cbn; try discriminate.
  specialize (Hv _ eq_refl eq_refl).
  destruct (certKey c) as [k|] eqn:Ek.
  - destruct (newest s !! k) as [prev|] eqn:En.
    + destruct (certs s !! prev) as [old|] eqn:Eo.
      * destruct (Z.ltb_spec (subjectTimestamp (subject c))
                             (subjectTimestamp (subject old))); cbn; [discriminate|].
        intros _. split; [exact Hv|]. right. exists k, prev, old. auto.
      * cbn. intros _. split; [exact Hv|]. left. split; [reflexivity|].
        intros k' [= <-]. right. eauto.
    + cbn. intros _. split; [exact Hv|]. left. split; [reflexivity|].
      intros k' [= <-]. left. exact En.
  - cbn. intros _. split; [exact Hv|]. left. split; [reflexivity|]. discriminate.
Qed.

(** Insertion keeps the newest pointers right. *)
Lemma insert_newestConsistent s c trust verified now :
  newestConsistent s -> newestConsistent (snd (insert s c trust verified now)).
Proof.
  intros Hs.
  destruct (decide (fst (insert s c trust verified now) = ZT_CERTIFICATE_ERROR_NONE))
    as [Hok | Herr]; [|rewrite insert_error_unchanged by exact Herr; exact Hs].
  destruct (insert_none_cases s c trust verified now Hok)
    as [_ [[-> Hfree] | (k & prev & old & Hk & Hn & Ho & _ & ->)]].
  - apply newestConsistent_add; [exact Hs|].
    intros serial c' k Hne Hc' Hk' Hkc.
    pose proof (Hs serial c' k Hc' Hk') as Hp.
    destruct (Hfree k Hkc) as [Hnone | (prev & Hprev & Hdang)]; congruence.
  - apply newestConsistent_add; [apply newestConsistent_erase; exact Hs|].
    intros serial c' k' Hne Hc' Hk' Hkc. cbn in Hc'.
    assert (k' = k) as -> by congruence.
    destruct (decide (prev = serial)) as [-> | Hps].
    + rewrite lookup_delete_eq in Hc'. discriminate.
    + rewrite lookup_delete_ne in Hc' by exact Hps.
      pose proof (Hs serial c' k Hc' Hk'). congruence.
Qed.

Lemma verifiedStore_newestConsistent s : verifiedStore s -> newestConsistent s.
Proof.
  induction 1 as [|s c trust now _ IH];
    [apply newestConsistent_empty | apply insert_newestConsistent; exact IH].
Qed.





End StoreFacts.



Lemma storeWithC2_holds_C2 :
  certs storeWithC2 !! serialNo certC2 = Some certC2 /\
  certs storeWithC2 !! serialNo certC1 = None /\
  fst (sampleInsert emptyStore certC1 1500) = ZT_CERTIFICATE_ERROR_NONE /\
  fst (sampleInsert (snd (sampleInsert emptyStore certC1 1500)) certC2 2500)
    = ZT_CERTIFICATE_ERROR_NONE.
Proof. vm_compute. repeat split; reflexivity. Qed.




End CertFacts.

Module NodeFacts.
Import ResultCode Node.

Lemma join_member (node : NodeState) (nwid : Z)
      (fp : option Cert.ZT_Fingerprint) (uptr : Z) :
  isMember (snd (ZT_Node_join node nwid fp uptr)) nwid.
Proof.
  unfold ZT_Node_join, isMember.
  destruct (networks node !! nwid) as [n|] eqn:E; cbn.
  - rewrite E. eauto.
  - rewrite lookup_insert_eq. eauto.
Qed.

Lemma join_returns_ok (node : NodeState) (nwid : Z)
      (fp : option Cert.ZT_Fingerprint) (uptr : Z) :
  fst (ZT_Node_join node nwid fp uptr) = ZT_RESULT_OK.
Proof. unfold ZT_Node_join. destruct (networks node !! nwid); reflexivity. Qed.

(** Other memberships are never touched by a join. *)
Lemma join_other (node : NodeState) (nwid other : Z)
      (fp : option Cert.ZT_Fingerprint) (uptr : Z) :
  other <> nwid ->
  networks (snd (ZT_Node_join node nwid fp uptr)) !! other = networks node !! other.
Proof.
  intros Hne. unfold ZT_Node_join.
  destruct (networks node !! nwid); cbn; [reflexivity|].
  apply lookup_insert_ne. congruence.
Qed.

(** C10. Joining is idempotent: when the node is already a member of the
    network, join returns OK and the node state is exactly what it was (no
    membership added, the network's own state untouched, no callback or
    request issued); in particular a second join right after a first one
    changes nothing. *)
Theorem join_idempotent
    (node : NodeState) (nwid : Z) (fp fp' : option Cert.ZT_Fingerprint)
    (uptr uptr' : Z) :
  (isMember node nwid ->
     ZT_Node_join node nwid fp uptr = (ZT_RESULT_OK, node) /\
     dom (networks (snd (ZT_Node_join node nwid fp uptr))) = dom (networks node) /\
     networks (snd (ZT_Node_join node nwid fp uptr)) !! nwid = networks node !! nwid /\
     effects (snd (ZT_Node_join node nwid fp uptr)) = effects node) /\
  ZT_Node_join (snd (ZT_Node_join node nwid fp uptr)) nwid fp' uptr'
    = (ZT_RESULT_OK, snd (ZT_Node_join node nwid fp uptr)).
Proof.
  assert (Hmem : forall n f u, isMember n nwid ->
                               ZT_Node_join n nwid f u = (ZT_RESULT_OK, n)).
  { intros n f u [net Hnet]. unfold ZT_Node_join. rewrite Hnet. reflexivity. }
  split.
  - intros Hm. rewrite (Hmem node fp uptr Hm). cbn. auto.
  - apply Hmem. apply join_member.
Qed.

Lemma join_idempotent_witness :
  ZT_Node_join joinedNode testNetworkId None 9 = (ZT_RESULT_OK, joinedNode).
Proof.
  destruct (join_idempotent joinedNode testNetworkId None None 9 9) as [Hm _].
  apply Hm. unfold isMember. vm_compute. eauto.
Defined.

(** The first join of the scenario network: the network starts in
    REQUESTING_CONFIGURATION and the request goes to controller
    fada000000, the high 40 bits of the network ID. *)
Example first_join :
  status <$> (networks joinedNode !! testNetworkId)
    = Some ZT_NETWORK_STATUS_REQUESTING_CONFIGURATION /\
  effects joinedNode =
    [ VirtualNetworkConfig testNetworkId ZT_VIRTUAL_NETWORK_CONFIG_OPERATION_UP
                           ZT_NETWORK_STATUS_REQUESTING_CONFIGURATION;
      NetworkConfigRequest testNetworkId 0xfada000000 ].
Proof. vm_compute. split; reflexivity. Qed.

End NodeFacts.

(* ------------------------------------------------------------------ *)
(** ** Further facts about the header's encodings *)

Module FlagsFacts.
Import Flags.

Lemma pow2_land_distinct (j k : Z) :
  0 <= j -> 0 <= k -> j <> k -> Z.land (2 ^ j) (2 ^ k) = 0.
Proof.
  intros Hj Hk Hne. apply Z.bits_inj'. intros n Hn.
  rewrite Z.land_spec, !Z.pow2_bits_eqb, Z.bits_0 by lia.
  destruct (Z.eqb_spec j n), (Z.eqb_spec k n); try reflexivity. lia.
Qed.

Lemma singleBits_disjoint (width : Z) (fs : list Z) :
  singleBits width fs ->
  forall f g, In f fs -> In g fs -> f <> g -> Z.land f g = 0.
Proof.
  intros [_ Hbits] f g Hf Hg Hne.
  destruct (Hbits f Hf) as (j & Hj & ->). destruct (Hbits g Hg) as (k & Hk & ->).
  apply pow2_land_distinct; try lia. congruence.
Qed.

Lemma singleBits_nonzero (width : Z) (fs : list Z) :
  singleBits width fs -> forall f, In f fs -> 0 < f < 2 ^ width.
Proof.
  intros [_ Hbits] f Hf. destruct (Hbits f Hf) as (k & Hk & ->).
  split; [apply Z.pow_pos_nonneg; lia | apply Z.pow_lt_mono_r; lia].
Qed.

(** Setting or clearing a flag leaves every disjoint flag as it was. *)
Lemma flag_other (w f g : Z) :
  Z.land f g = 0 ->
  hasFlag (setFlag w f) g = hasFlag w g /\
  hasFlag (clearFlag w f) g = hasFlag w g.
Proof.
  intros Hd. unfold hasFlag, setFlag, clearFlag. split.
  - rewrite Z.land_lor_distr_l, Hd, Z.lor_0_r. reflexivity.
  - replace (Z.land (Z.land w (Z.lnot f)) g) with (Z.land w g); [reflexivity|].
    apply Z.bits_inj'. intros n Hn.
    rewrite !Z.land_spec, Z.lnot_spec by lia.
    assert (Hb : Z.testbit f n && Z.testbit g n = false)
      by (rewrite <- Z.land_spec, Hd; apply Z.bits_0).
    destruct (Z.testbit w n), (Z.testbit f n), (Z.testbit g n);
      try reflexivity; discriminate.
Qed.

(** A flag that was set is seen, one that was cleared is not. *)
Lemma flag_same (w f : Z) :
  f <> 0 ->
  hasFlag (setFlag w f) f = true /\ hasFlag (clearFlag w f) f = false.
Proof.
  intros Hf. unfold hasFlag, setFlag, clearFlag. split.
  - replace (Z.land (Z.lor w f) f) with f.
    + destruct (Z.eqb_spec f 0); [contradiction | reflexivity].
    + apply Z.bits_inj'. intros n Hn. rewrite Z.land_spec, Z.lor_spec.
      destruct (Z.testbit w n), (Z.testbit f n); reflexivity.
  - replace (Z.land (Z.land w (Z.lnot f)) f) with 0; [reflexivity|].
    apply Z.bits_inj'. intros n Hn.
    rewrite !Z.land_spec, Z.lnot_spec, Z.bits_0 by lia.
    destruct (Z.testbit w n), (Z.testbit f n); reflexivity.
Qed.

Lemma below_pow2_land (w n : Z) :
  0 <= n -> (0 <= w < 2 ^ n <-> Z.land w (Z.ones n) = w).
Proof.
  intros Hn. rewrite Z.land_ones by exact Hn. split.
  - intros H. apply Z.mod_small. exact H.
  - intros <-. apply Z.mod_pos_bound. apply Z.pow_pos_nonneg; lia.
Qed.

(** Flag operations stay inside the word. *)
Lemma flag_word_closed (n w f : Z) :
  0 <= n -> 0 <= w < 2 ^ n -> 0 <= f < 2 ^ n ->
  0 <= setFlag w f < 2 ^ n /\ 0 <= clearFlag w f < 2 ^ n.
Proof.
  intros Hn Hw Hf. unfold setFlag, clearFlag.
  apply (below_pow2_land w n Hn) in Hw. apply (below_pow2_land f n Hn) in Hf.
  split; apply (below_pow2_land _ n Hn).
  - rewrite Z.land_lor_distr_l, Hw, Hf. reflexivity.
  - rewrite <- Z.land_assoc, (Z.land_comm (Z.lnot f)), Z.land_assoc, Hw. reflexivity.
Qed.

Lemma singleBits_ops (width : Z) (fs : list Z) :
  0 <= width -> singleBits width fs ->
  (forall w f g, In f fs -> In g fs -> f <> g ->
     hasFlag (setFlag w f) g = hasFlag w g /\
     hasFlag (clearFlag w f) g = hasFlag w g) /\
  (forall w f, In f fs ->
     hasFlag (setFlag w f) f = true /\ hasFlag (clearFlag w f) f = false) /\
  (forall w f, 0 <= w < 2 ^ width -> In f fs ->
     0 <= setFlag w f < 2 ^ width /\ 0 <= clearFlag w f < 2 ^ width).
Proof.
  intros Hwidth Hs. repeat split.
  - apply flag_other. eapply singleBits_disjoint; eauto.
  - apply flag_other. eapply singleBits_disjoint; eauto.
  - apply flag_same. pose proof (singleBits_nonzero _ _ Hs f H). lia.
  - apply flag_same. pose proof (singleBits_nonzero _ _ Hs f H). lia.
  - apply (flag_word_closed width w f); auto.
    pose proof (singleBits_nonzero _ _ Hs f H0). lia.
  - apply (flag_word_closed width w f); auto.
    pose proof (singleBits_nonzero _ _ Hs f H0). lia.
  - apply (flag_word_closed width w f); auto.
    pose proof (singleBits_nonzero _ _ Hs f H0). lia.
  - apply (flag_word_closed width w f); auto.
    pose proof (singleBits_nonzero _ _ Hs f H0). lia.
Qed.

(** Deciding [singleBits] on a given list: the bit positions are listed. *)
Lemma singleBits_of_positions (width : Z) (ks : list Z) :
  List.NoDup ks -> (forall k, In k ks -> 0 <= k < width) ->
  singleBits width (map (fun k => 2 ^ k) ks).
Proof.
  intros Hnd Hrange. split.
  - apply Finite.Injective_map_NoDup_in; [|exact Hnd].
    intros j k Hj Hk Heq.
    apply (Z.pow_inj_r 2); try lia.
    + specialize (Hrange j Hj). lia.
    + specialize (Hrange k Hk). lia.
  - intros f Hf. apply in_map_iff in Hf as (k & <- & Hk). eauto.
Qed.

Lemma characteristics_singleBits : singleBits 64 allCharacteristics.
Proof.
  change allCharacteristics
    with (map (fun k => 2 ^ k) [63; 62; 61; 60; 59; 0; 1; 2; 3; 4; 5; 6; 7; 8; 9; 10; 11]).
  apply singleBits_of_positions.
  - repeat constructor; cbn; intuition lia.
  - cbn. intuition lia.
Qed.

Lemma traceFlags_singleBits : singleBits 4 traceFlags.
Proof.
  change traceFlags with (map (fun k => 2 ^ k) [0; 1; 2; 3]).
  apply singleBits_of_positions.
  - repeat constructor; cbn; intuition lia.
  - cbn. intuition lia.
Qed.

Lemma localTrustFlags_singleBits : singleBits 2 localTrustFlags.
Proof.
  change localTrustFlags with (map (fun k => 2 ^ k) [0; 1]).
  apply singleBits_of_positions.
  - repeat constructor; cbn; intuition lia.
  - cbn. intuition lia.
Qed.

(** A word built by OR-ing a selection of flags of a family has exactly the
    selected flags set. *)
Lemma flagWord_has (width : Z) (family fs : list Z) (f : Z) :
  singleBits width family ->
  (forall x, In x fs -> In x family) -> In f family ->
  (hasFlag (flagWord fs) f = true <-> In f fs).
Proof.
  intros Hs Hsub Hf. induction fs as [|a fs IH].
  - cbn. split; [discriminate | contradiction].
  - cbn [flagWord fold_right]. fold (flagWord fs).
    rewrite Z.lor_comm. fold (setFlag (flagWord fs) a).
    assert (Ha : In a family) by (apply Hsub; left; reflexivity).
    assert (IH' : hasFlag (flagWord fs) f = true <-> In f fs)
      by (apply IH; intros x Hx; apply Hsub; right; exact Hx).
    destruct (Z.eq_dec a f) as [-> | Hne].
    + pose proof (singleBits_nonzero _ _ Hs f Hf).
      destruct (flag_same (flagWord fs) f ltac:(lia)) as [-> _].
      split; [left; reflexivity | reflexivity].
    + destruct (flag_other (flagWord fs) a f
                  (singleBits_disjoint _ _ Hs a f Ha Hf Hne)) as [-> _].
      rewrite IH'. cbn. intuition congruence.
Qed.

(** X4. The seventeen packet-characteristics flags are single, pairwise
    different bits of a 64-bit word: the twelve TCP flags fill bits 0..11,
    the five frame flags bits 59..63.  Hence setting or clearing one flag
    never changes what a test of another one gives, the flag itself reads
    back as set or cleared, the word stays a 64-bit value, and a word built
    by OR-ing any selection of flags has exactly those flags set. *)
Theorem characteristics_flags_independent :
  singleBits 64 allCharacteristics /\
  flagWord tcpCharacteristics = 2 ^ 12 - 1 /\
  flagWord frameCharacteristics = 2 ^ 64 - 2 ^ 59 /\
  (forall w f g, In f allCharacteristics -> In g allCharacteristics -> f <> g ->
     hasFlag (setFlag w f) g = hasFlag w g /\
     hasFlag (clearFlag w f) g = hasFlag w g) /\
  (forall w f, In f allCharacteristics ->
     hasFlag (setFlag w f) f = true /\ hasFlag (clearFlag w f) f = false) /\
  (forall w f, 0 <= w < 2 ^ 64 -> In f allCharacteristics ->
     0 <= setFlag w f < 2 ^ 64 /\ 0 <= clearFlag w f < 2 ^ 64) /\
  (forall fs f, (forall x, In x fs -> In x allCharacteristics) ->
     In f allCharacteristics ->
     (hasFlag (flagWord fs) f = true <-> In f fs)).
Proof.
  pose proof characteristics_singleBits as Hs.
  destruct (singleBits_ops 64 allCharacteristics ltac:(lia) Hs) as (H1 & H2 & H3).
  split; [exact Hs|]. split; [reflexivity|]. split; [reflexivity|].
  split; [exact H1|]. split; [exact H2|]. split; [exact H3|].
  intros fs f Hsub Hf. exact (flagWord_has 64 allCharacteristics fs f Hs Hsub Hf).
Qed.

Lemma characteristics_flags_independent_witness :
  hasFlag (setFlag ZT_RULE_PACKET_CHARACTERISTICS_INBOUND
                   ZT_RULE_PACKET_CHARACTERISTICS_TCP_SYN)
          ZT_RULE_PACKET_CHARACTERISTICS_TCP_ACK = false /\
  hasFlag (flagWord [ZT_RULE_PACKET_CHARACTERISTICS_TCP_SYN;
                     ZT_RULE_PACKET_CHARACTERISTICS_MULTICAST])
          ZT_RULE_PACKET_CHARACTERISTICS_MULTICAST = true.
Proof.
  destruct characteristics_flags_independent as (_ & _ & _ & Hother & _ & _ & Hword).
  split.
  - destruct (Hother ZT_RULE_PACKET_CHARACTERISTICS_INBOUND
                     ZT_RULE_PACKET_CHARACTERISTICS_TCP_SYN
                     ZT_RULE_PACKET_CHARACTERISTICS_TCP_ACK) as [-> _].
    + cbn. tauto.
    + cbn. tauto.
    + vm_compute. discriminate.
    + reflexivity.
  - apply Hword.
    + cbn. intuition (subst; tauto).
    + cbn. tauto.
    + cbn. tauto.
Defined.

(** X5. The four trace flags are the four low bits and the two local trust
    flags of a certificate the two low bits of their words, each flag a bit
    of its own: flags are set, cleared and tested independently of each
    other, and ROOT_CA / ZEROTIER_ROOT_SET are bit 0 / bit 1 of a trust
    value. *)
Theorem trace_and_trust_flags_independent :
  singleBits 4 traceFlags /\ flagWord traceFlags = 2 ^ 4 - 1 /\
  singleBits 2 localTrustFlags /\ flagWord localTrustFlags = 2 ^ 2 - 1 /\
  (forall fs w f g, fs = traceFlags \/ fs = localTrustFlags ->
     In f fs -> In g fs -> f <> g ->
     hasFlag (setFlag w f) g = hasFlag w g /\
     hasFlag (clearFlag w f) g = hasFlag w g) /\
  (forall fs w f, fs = traceFlags \/ fs = localTrustFlags -> In f fs ->
     hasFlag (setFlag w f) f = true /\ hasFlag (clearFlag w f) f = false) /\
  (forall sel f, (forall x, In x sel -> In x traceFlags) -> In f traceFlags ->
     (hasFlag (flagWord sel) f = true <-> In f sel)) /\
  (forall tr, hasFlag tr Cert.ZT_CERTIFICATE_LOCAL_TRUST_FLAG_ROOT_CA = Z.testbit tr 0 /\
              hasFlag tr Cert.ZT_CERTIFICATE_LOCAL_TRUST_FLAG_ZEROTIER_ROOT_SET
                = Z.testbit tr 1).
Proof.
  pose proof traceFlags_singleBits as Ht.
  pose proof localTrustFlags_singleBits as Hl.
  destruct (singleBits_ops 4 traceFlags ltac:(lia) Ht) as (T1 & T2 & _).
  destruct (singleBits_ops 2 localTrustFlags ltac:(lia) Hl) as (L1 & L2 & _).
  split; [exact Ht|]. split; [reflexivity|].
  split; [exact Hl|]. split; [reflexivity|].
  split; [intros fs w f g [-> | ->]; auto|].
  split; [intros fs w f [-> | ->]; auto|].
  split; [intros sel f Hsub Hf; exact (flagWord_has 4 traceFlags sel f Ht Hsub Hf)|].
  intros tr. unfold hasFlag. split.
  - change Cert.ZT_CERTIFICATE_LOCAL_TRUST_FLAG_ROOT_CA with (2 ^ 0).
    rewrite RulesFacts.land_single_bit by lia.
    destruct (Z.testbit tr 0); reflexivity.
  - change Cert.ZT_CERTIFICATE_LOCAL_TRUST_FLAG_ZEROTIER_ROOT_SET with (2 ^ 1).
    rewrite RulesFacts.land_single_bit by lia.
    destruct (Z.testbit tr 1); reflexivity.
Qed.

Lemma trace_and_trust_flags_independent_witness :
  hasFlag (clearFlag 15 ZT_TRACE_FLAG_VL2_FILTER) ZT_TRACE_FLAG_VL2 = true /\
  hasFlag (clearFlag 15 ZT_TRACE_FLAG_VL2_FILTER) ZT_TRACE_FLAG_VL2_FILTER = false.
Proof.
  destruct trace_and_trust_flags_independent as (_ & _ & _ & _ & Hother & Hsame & _).
  split.
  - destruct (Hother traceFlags 15 ZT_TRACE_FLAG_VL2_FILTER ZT_TRACE_FLAG_VL2)
      as [_ ->].
    + left. reflexivity.
    + cbn. tauto.
    + cbn. tauto.
    + vm_compute. discriminate.
    + reflexivity.
  - apply (Hsame traceFlags 15 ZT_TRACE_FLAG_VL2_FILTER).
    + left. reflexivity.
    + cbn. tauto.
Defined.

End FlagsFacts.

Module RuleFormatFacts.
Import Rules RuleFormat.

(** Checking a boolean property on every integer below a bound. *)
Lemma forall_below (P : Z -> bool) (n : nat) :
  forallb P (map Z.of_nat (seq 0 n)) = true ->
  forall z, 0 <= z < Z.of_nat n -> P z = true.
Proof.
  intros Hall z Hz. rewrite forallb_forall in Hall. apply Hall.
  apply in_map_iff. exists (Z.to_nat z). split; [lia|].
  apply in_seq. lia.
Qed.

Lemma modifierBits_fields (n o : bool) :
  Z.land (modifierBits n o) 0x3f = 0 /\
  Z.land (modifierBits n o) 0x80 = (if n then 0x80 else 0) /\
  Z.land (modifierBits n o) 0x40 = (if o then 0x40 else 0) /\
  Z.land (modifierBits n o) 0xff = modifierBits n o.
Proof. destruct n, o; repeat split; reflexivity. Qed.

Lemma withModifiers_fields (t : Z) (n o : bool) :
  ruleType (withModifiers t n o) = ruleType t /\
  ruleNot (withModifiers t n o) = n /\
  ruleOr (withModifiers t n o) = o /\
  0 <= withModifiers t n o < 256.
Proof.
  destruct (modifierBits_fields n o) as (Hty & Hn & Ho & Hbyte).
  unfold ruleType, ruleNot, ruleOr, withModifiers. repeat split.
  - rewrite Z.land_lor_distr_l, Hty, Z.lor_0_r, <- Z.land_assoc. reflexivity.
  - rewrite Z.land_lor_distr_l, Hn, <- Z.land_assoc.
    change (Z.land 0x3f 0x80) with 0. rewrite Z.land_0_r. destruct n; reflexivity.
  - rewrite Z.land_lor_distr_l, Ho, <- Z.land_assoc.
    change (Z.land 0x3f 0x40) with 0. rewrite Z.land_0_r. destruct o; reflexivity.
  - apply Z.lor_nonneg. split; [apply Z.land_nonneg; right; lia|].
    destruct n, o; vm_compute; discriminate.
  - apply (proj2 (FlagsFacts.below_pow2_land _ 8 ltac:(lia))).
    change (Z.ones 8) with 0xff.
    rewrite Z.land_lor_distr_l, Hbyte, <- Z.land_assoc. reflexivity.
Qed.

Lemma withModifiers_same (t : Z) :
  0 <= t < 256 -> withModifiers t (ruleNot t) (ruleOr t) = t.
Proof.
  intros Ht.
  apply Z.eqb_eq.
  exact (forall_below (fun z => withModifiers z (ruleNot z) (ruleOr z) =? z)
                      256 ltac:(vm_compute; reflexivity) t Ht).
Qed.

(** X1. The type field and the two modifier bits of a tag byte are
    independent: replacing the NOT and OR bits of any tag keeps its type
    (so an entry stays the ACTION or MATCH it was), gives back the new
    modifiers and stays a byte; putting a tag's own modifiers back gives
    the tag itself, so a tag byte is determined by its type, NOT and OR
    fields. *)
Theorem tag_fields_independent :
  (forall t n o,
     ruleType (withModifiers t n o) = ruleType t /\
     ruleNot (withModifiers t n o) = n /\
     ruleOr (withModifiers t n o) = o /\
     isActionCode (ruleType (withModifiers t n o)) = isActionCode (ruleType t) /\
     0 <= withModifiers t n o < 256) /\
  (forall t, 0 <= t < 256 -> withModifiers t (ruleNot t) (ruleOr t) = t) /\
  (forall t t', 0 <= t < 256 -> 0 <= t' < 256 ->
     ruleType t = ruleType t' -> ruleNot t = ruleNot t' -> ruleOr t = ruleOr t' ->
     t = t').
Proof.
  split; [|split].
  - intros t n o. destruct (withModifiers_fields t n o) as (H1 & H2 & H3 & H4).
    rewrite H1. auto.
  - exact withModifiers_same.
  - intros t t' Ht Ht' Hty Hn Ho.
    rewrite <- (withModifiers_same t Ht), <- (withModifiers_same t' Ht').
    unfold withModifiers. fold (ruleType t) (ruleType t').
    rewrite Hty, Hn, Ho. reflexivity.
Qed.

Lemma tag_fields_independent_witness :
  withModifiers 0xE5 (ruleNot 0xE5) (ruleOr 0xE5) = 0xE5 /\ ruleType 0xE5 = 37.
Proof.
  destruct tag_fields_independent as (_ & Hsame & _).
  split; [apply Hsame; lia | reflexivity].
Defined.

Lemma ruleTypeOfCode_code (rt : ZT_VirtualNetworkRuleType) :
  ruleTypeOfCode (code rt) = Some rt.
Proof. destruct rt; reflexivity. Qed.

Lemma ruleTypeOfCode_some (c : Z) (rt : ZT_VirtualNetworkRuleType) :
  ruleTypeOfCode c = Some rt -> code rt = c.
Proof.
  unfold ruleTypeOfCode. intros H. apply find_some in H as [_ H].
  apply Z.eqb_eq. exact H.
Qed.

Lemma ruleTypeOfCode_none (c : Z) :
  0 <= c < 64 ->
  (ruleTypeOfCode c = None <-> unassignedCode c = true).
Proof.
  intros Hc.
  pose proof (forall_below
                (fun z => Bool.eqb (match ruleTypeOfCode z with Some _ => false | None => true end)
                                   (unassignedCode z))
                64 ltac:(vm_compute; reflexivity) c Hc) as H.
  apply Bool.eqb_prop in H. rewrite <- H.
  destruct (ruleTypeOfCode c); split; congruence.
Qed.

(** X2. The codes of the rule types are pairwise different, so the type
    field of a tag names at most one enumerator, found by
    [ruleTypeOfCode]: it inverts [code], also through a tag with any
    modifiers, and of the 64 possible codes exactly 7..14, 16..23 and
    52..62 name no type. *)
Theorem rule_type_codes_unambiguous :
  (forall rt, ruleTypeOfCode (code rt) = Some rt) /\
  (forall c rt, ruleTypeOfCode c = Some rt -> code rt = c) /\
  (forall rt rt', code rt = code rt' -> rt = rt') /\
  (forall rt n o, ruleTypeOfCode (ruleType (mkTag rt n o)) = Some rt) /\
  (forall c, 0 <= c < 64 ->
     (ruleTypeOfCode c = None <->
      7 <= c <= 14 \/ 16 <= c <= 23 \/ 52 <= c <= 62)).
Proof.
  split; [exact ruleTypeOfCode_code|].
  split; [exact ruleTypeOfCode_some|].
  split.
  { intros rt rt' Heq. pose proof (ruleTypeOfCode_code rt) as H.
    rewrite Heq, ruleTypeOfCode_code in H. congruence. }
  split.
  { intros rt n o. destruct (RulesFacts.mkTag_decode rt n o) as [-> _].
    apply ruleTypeOfCode_code. }
  intros c Hc. rewrite (ruleTypeOfCode_none c Hc). unfold unassignedCode.
  rewrite !orb_true_iff, !andb_true_iff, !Z.leb_le. tauto.
Qed.

Lemma rule_type_codes_unambiguous_witness :
  ruleTypeOfCode 37 = Some ZT_NETWORK_RULE_MATCH_ETHERTYPE /\
  ruleTypeOfCode 20 = None.
Proof.
  destruct rule_type_codes_unambiguous as (_ & _ & _ & _ & Hnone).
  split; [reflexivity|].
  apply (Hnone 20); lia.
Defined.

Lemma intRangeBits_range (format : Z) : 1 <= intRangeBits format <= 64.
Proof.
  unfold intRangeBits. change 63 with (2 ^ 6 - 1).
  rewrite RulesFacts.land_low_bits by lia.
  pose proof (Z.mod_pos_bound format (2 ^ 6) ltac:(lia)). lia.
Qed.

Lemma mkIntRangeFormat_decode (bits : Z) (le : bool) :
  1 <= bits <= 64 ->
  intRangeBits (mkIntRangeFormat bits le) = bits /\
  intRangeLittleEndian (mkIntRangeFormat bits le) = le /\
  0 <= mkIntRangeFormat bits le < 256.
Proof.
  intros Hb.
  assert (H : forall l,
             (intRangeBits (mkIntRangeFormat (bits - 1 + 1) l) =? bits - 1 + 1)
             && Bool.eqb (intRangeLittleEndian (mkIntRangeFormat (bits - 1 + 1) l)) l
             && (0 <=? mkIntRangeFormat (bits - 1 + 1) l)
             && (mkIntRangeFormat (bits - 1 + 1) l <? 256) = true).
  { intros l.
    apply (forall_below
             (fun z => (intRangeBits (mkIntRangeFormat (z + 1) l) =? z + 1)
                       && Bool.eqb (intRangeLittleEndian (mkIntRangeFormat (z + 1) l)) l
                       && (0 <=? mkIntRangeFormat (z + 1) l)
                       && (mkIntRangeFormat (z + 1) l <? 256))
             64 ltac:(destruct l; vm_compute; reflexivity) (bits - 1)). lia. }
  specialize (H le). replace (bits - 1 + 1) with bits in H by lia.
  rewrite !andb_true_iff in H. destruct H as [[[H1 H2] H3] H4].
  apply Z.eqb_eq in H1. apply Bool.eqb_prop in H2.
  apply Z.leb_le in H3. apply Z.ltb_lt in H4. auto.
Qed.

(** X3. The format byte of an integer-range match: the width
    [(format & 63) + 1] is always between 1 and 64 bits, every width from 1
    to 64 with either endianness has a format byte that decodes to it, and
    bit 6 of the format is ignored. *)
Theorem intRange_format_decoding :
  (forall format, 1 <= intRangeBits format <= 64) /\
  (forall bits le, 1 <= bits <= 64 ->
     intRangeBits (mkIntRangeFormat bits le) = bits /\
     intRangeLittleEndian (mkIntRangeFormat bits le) = le /\
     0 <= mkIntRangeFormat bits le < 256) /\
  (forall format,
     intRangeBits (Z.lxor format 0x40) = intRangeBits format /\
     intRangeLittleEndian (Z.lxor format 0x40) = intRangeLittleEndian format).
Proof.
  split; [exact intRangeBits_range|]. split; [exact mkIntRangeFormat_decode|].
  intros format. unfold intRangeBits, intRangeLittleEndian. split.
  - f_equal. apply Z.bits_inj'. intros n Hn.
    rewrite !Z.land_spec, Z.lxor_spec.
    change 63 with (Z.ones 6). change 0x40 with (2 ^ 6).
    rewrite Z.pow2_bits_eqb by lia.
    destruct (Z.ltb_spec n 6).
    + destruct (Z.eqb_spec 6 n); [lia|]. rewrite xorb_false_r. reflexivity.
    + rewrite Z.ones_spec_high by lia. rewrite !andb_false_r. reflexivity.
  - f_equal. f_equal. apply Z.bits_inj'. intros n Hn.
    rewrite !Z.land_spec, Z.lxor_spec.
    change 0x80 with (2 ^ 7). change 0x40 with (2 ^ 6).
    rewrite !Z.pow2_bits_eqb by lia.
    destruct (Z.eqb_spec 7 n); [|rewrite !andb_false_r; reflexivity].
    destruct (Z.eqb_spec 6 n); [lia|]. rewrite xorb_false_r. reflexivity.
Qed.

Lemma intRange_format_decoding_witness :
  intRangeBits (mkIntRangeFormat 16 true) = 16 /\
  intRangeLittleEndian (mkIntRangeFormat 16 true) = true.
Proof.
  destruct intRange_format_decoding as (_ & Hdec & _).
  destruct (Hdec 16 true ltac:(lia)) as (H1 & H2 & _). split; assumption.
Defined.

End RuleFormatFacts.

Module LimitsFacts.
Import Constants Limits.

(** X6. The MTU limits nest: every virtual MTU between ZT_MIN_MTU and
    ZT_MAX_MTU is a possible physical payload and, with the headroom added,
    at most ZT_MAX_UDP_MTU (10324), and whatever is at most ZT_MAX_UDP_MTU
    fits a standard buffer of ZT_BUF_SIZE bytes.  The smallest virtual MTU
    fits the smallest physical one, the default physical payload lies
    between the physical minimum and maximum, and two default payloads
    cover the default virtual MTU of 2800, as the header says. *)
Theorem mtu_limits_nest :
  ZT_MAX_UDP_MTU = 10324 /\
  (forall m, ZT_MIN_MTU <= m <= ZT_MAX_MTU ->
     m <= ZT_MAX_UDP_PHYSPAYLOAD /\ m + ZT_MAX_UDP_HEADROOM <= ZT_MAX_UDP_MTU) /\
  (forall p, p <= ZT_MAX_UDP_MTU -> p <= ZT_BUF_SIZE) /\
  ZT_MIN_MTU <= ZT_MIN_UDP_MTU <= ZT_DEFAULT_UDP_MTU /\
  ZT_DEFAULT_UDP_MTU <= ZT_MAX_UDP_PHYSPAYLOAD /\
  ZT_MIN_MTU <= defaultVirtualMTU <= ZT_MAX_MTU /\
  ZT_DEFAULT_UDP_MTU < defaultVirtualMTU <= 2 * ZT_DEFAULT_UDP_MTU.
Proof.
  unfold ZT_MAX_UDP_MTU, ZT_MIN_MTU, ZT_MAX_MTU, ZT_MAX_UDP_PHYSPAYLOAD,
    ZT_MAX_UDP_HEADROOM, ZT_BUF_SIZE, ZT_MIN_UDP_MTU, ZT_DEFAULT_UDP_MTU,
    defaultVirtualMTU.
  repeat split; try reflexivity; intros; lia.
Qed.

Lemma mtu_limits_nest_witness :
  2800 + ZT_MAX_UDP_HEADROOM <= ZT_MAX_UDP_MTU /\ 3024 <= ZT_BUF_SIZE.
Proof.
  destruct mtu_limits_nest as (_ & Hvirt & Hbuf & _).
  split.
  - apply (Hvirt 2800). unfold ZT_MIN_MTU, ZT_MAX_MTU. lia.
  - apply Hbuf. unfold ZT_MAX_UDP_MTU, ZT_MAX_UDP_PHYSPAYLOAD, ZT_MAX_UDP_HEADROOM. lia.
Defined.

End LimitsFacts.
